(** * recipes-api: the recipe handlers, in memory and on a relational table

    The repository holds the same five HTTP handlers three times: once over a
    package-level slice [recipes] (the in-memory program), and twice over a
    gorm connection (the single-file database program and its split into
    [handlers/recipe-handler.go] and [models/recipe.go], whose handler bodies
    are the same text).  The development embeds both families:

    - [InMemory]: the handlers over [var recipes []Recipe];
    - [Database]: the handlers of [handlers/recipe-handler.go] over a table,
      with the gorm calls they make given as functions on the rows.

    A handler is a function from the request and the state of the process to
    the sequence of [c.JSON] calls it makes and the state it leaves. *)

From Stdlib Require Import ZArith Lia String Ascii.
From stdpp Require Import base list strings.

Local Open Scope string_scope.
Local Open Scope list_scope.
Local Open Scope Z_scope.

(** ** Go strings

    A Go string is a sequence of bytes; so is a Rocq [string]. *)

Module GoStrings.

(** [strings.ToLower] on one byte of an ASCII string: ['A'..'Z'] move to
    ['a'..'z'], every other byte stays.  Go lowers the other upper-case
    letters of Unicode too, so [ToLower] is Go's function on ASCII strings
    ([ascii_only]) and the facts about the lowering search are stated for
    those. *)
Definition toLowerByte (c : ascii) : ascii :=
  let n := N_of_ascii c in
  if ((65 <=? n) && (n <=? 90))%N then ascii_of_N (n + 32) else c.

Fixpoint ToLower (s : string) : string :=
  match s with
  | EmptyString => EmptyString
  | String c s' => String (toLowerByte c) (ToLower s')
  end.

(** [strings.HasPrefix s prefix]. *)
Fixpoint HasPrefix (s prefix : string) {struct prefix} : bool :=
  match prefix, s with
  | EmptyString, _ => true
  | String _ _, EmptyString => false
  | String p prefix', String c s' => Ascii.eqb c p && HasPrefix s' prefix'
  end.

(** [strings.Contains s substr]: [substr] occurs in [s] at some offset. *)
Fixpoint Contains (s substr : string) : bool :=
  HasPrefix s substr ||
  match s with
  | EmptyString => false
  | String _ s' => Contains s' substr
  end.

(** A string all of whose bytes are below 128. *)
Definition ascii_byte (c : ascii) : bool := (N_of_ascii c <? 128)%N.

Fixpoint ascii_only (s : string) : bool :=
  match s with
  | EmptyString => true
  | String c s' => ascii_byte c && ascii_only s'
  end.

(** What "contains as a substring" means. *)
Definition substring_of (sub s : string) : Prop :=
  ∃ a b : string, s = (a ++ sub ++ b)%string.

End GoStrings.
Export GoStrings.

(** ** The Recipe entity *)

(** [time.Time] as a count of nanoseconds from the zero instant
    (January 1, year 1, 00:00:00 UTC), which is the zero value of the type. *)
Definition Time := Z.
Definition IsZero (t : Time) : bool := t =? 0.

(** A Go [[]string]: [None] is the nil slice (what a JSON body that omits
    the field or gives [null] decodes to), [Some l] a slice holding [l]
    ([Some []] is what the JSON text for an empty array decodes to).  Ranging
    over either visits [elems]. *)
Definition StringSlice := option (list string).

Definition elems (s : StringSlice) : list string :=
  match s with
  | None => []
  | Some l => l
  end.

Record Recipe := mkRecipe {
  ID : string;
  Name : string;
  Tags : StringSlice;
  Ingredients : StringSlice;
  Instructions : StringSlice;
  PublishedAt : Time
}.

Definition set_ID (id : string) (r : Recipe) : Recipe :=
  mkRecipe id (Name r) (Tags r) (Ingredients r) (Instructions r) (PublishedAt r).

Definition set_PublishedAt (t : Time) (r : Recipe) : Recipe :=
  mkRecipe (ID r) (Name r) (Tags r) (Ingredients r) (Instructions r) t.

(** ** What a handler sees and writes *)

(** The outcome of [c.ShouldBindJSON(&recipe)]: the text of the error, or the
    record the body decodes to. *)
Inductive Bind :=
| BindErr (msg : string)
| BindOk (recipe : Recipe).

(** The error of a gorm call: gorm's own "record not found" and "WHERE
    conditions required", and the error of the database driver for a second
    row with a key the table has (gorm is opened without error translation,
    so this one reaches the handler as the driver made it). *)
Inductive dbError :=
| ErrRecordNotFound
| ErrUniqueViolation
| ErrMissingWhereClause.

(** The second argument of [c.JSON].  [DriverErrorH err] carries the text
    [err.Error()], which is the driver's and is left as it is. *)
Inductive Payload :=
| ErrorH (msg : string)            (* gin.H{"error": msg} *)
| DriverErrorH (err : dbError)     (* gin.H{"error": err.Error()} *)
| MessageH (msg : string)          (* gin.H{"message": msg} *)
| OneRecipe (recipe : Recipe)
| ManyRecipes (recipes : list Recipe).

(** One call [c.JSON(status, payload)]. *)
Definition Reply : Type := Z * Payload.

Definition StatusOK : Z := 200.
Definition StatusBadRequest : Z := 400.
Definition StatusNotFound : Z := 404.
Definition StatusInternalServerError : Z := 500.

(** What reading and decoding [recipes.json] gives at start-up: the file
    cannot be read; [json.Unmarshal] returns an error, having put [decoded]
    into the slice (nothing for a syntax error, the records it could decode
    for a value of the wrong type); or the file decodes to [batch]. *)
Inductive RecipesFile :=
| ReadError
| ParseError (decoded : list Recipe)
| Parsed (batch : list Recipe).

(** A [log.Fatalf] of the start-up load, which ends the process: which of
    the three it is, with the name of the record and the error of the
    insert for the third; the text of the error is the driver's. *)
Inductive Fatal :=
| FatalReading
| FatalParsing
| FatalInserting (name : string) (err : dbError).

(** ** The in-memory program: handlers over [var recipes []Recipe] *)

Module InMemory.

(** The state of the process: the package-level slice, and how many
    identifiers [xid.New()] and how many readings [time.Now()] have been
    handed out so far. *)
Record World := mkWorld {
  recipes : list Recipe;
  xids : nat;
  nows : nat
}.

Definition set_recipes (rs : list Recipe) (w : World) : World :=
  mkWorld rs (xids w) (nows w).

(** A request the router dispatches to one of the five handlers. *)
Inductive Request :=
| POST_recipes (body : Bind)
| GET_recipes
| PUT_recipes (id : string) (body : Bind)
| DELETE_recipes (id : string)
| GET_recipes_search (tag : string).

Section Program.

(** The outside of the process: [xid_String n] is the text of the [n]-th
    identifier the xid generator produces, [clock n] the [n]-th reading of
    the wall clock. *)
Variable xid_String : nat → string.
Variable clock : nat → Time.

(** [xid.New().String()] *)
Definition xid_New (w : World) : string * World :=
  (xid_String (xids w), mkWorld (recipes w) (S (xids w)) (nows w)).

(** [time.Now()] *)
Definition time_Now (w : World) : Time * World :=
  (clock (nows w), mkWorld (recipes w) (xids w) (S (nows w))).

(** [init]: the slice is made empty, then [json.Unmarshal] decodes the file
    into it; both errors are dropped, so what was decoded before an error
    stays in the slice. *)
Definition init (file : RecipesFile) (w : World) : World :=
  let w := set_recipes [] w in
  match file with
  | Parsed batch => set_recipes batch w
  | ParseError decoded => set_recipes decoded w
  | ReadError => w
  end.

Definition NewRecipeHandler (body : Bind) (w : World) : list Reply * World :=
  match body with
  | BindErr msg => ([(StatusBadRequest, ErrorH msg)], w)
  | BindOk recipe =>
      let '(id, w) := xid_New w in
      let recipe := set_ID id recipe in
      let '(now, w) := time_Now w in
      let recipe := set_PublishedAt now recipe in
      let w := set_recipes (recipes w ++ [recipe]) w in
      ([(StatusOK, OneRecipe recipe)], w)
  end.

Definition ListRecipesHandler (w : World) : list Reply * World :=
  ([(StatusOK, ManyRecipes (recipes w))], w).

(** The lookup loop of the update and delete handlers, from position [i] on:
    [index] is overwritten at every position whose record has the id, so the
    last such position wins. *)
Fixpoint findIndex_from (id : string) (rs : list Recipe) (i index : Z) : Z :=
  match rs with
  | [] => index
  | r :: rs' =>
      findIndex_from id rs' (i + 1) (if String.eqb (ID r) id then i else index)
  end.

Definition findIndex (id : string) (rs : list Recipe) : Z :=
  findIndex_from id rs 0 (-1).

Definition UpdateRecipeHandler (id : string) (body : Bind) (w : World)
  : list Reply * World :=
  match body with
  | BindErr msg => ([(StatusBadRequest, ErrorH msg)], w)
  | BindOk recipe =>
      let index := findIndex id (recipes w) in
      if index =? -1 then ([(StatusNotFound, ErrorH "Recipe not found")], w)
      else
        let w := set_recipes (<[Z.to_nat index := recipe]> (recipes w)) w in
        ([(StatusOK, OneRecipe recipe)], w)
  end.

Definition DeleteRecipeHandler (id : string) (w : World) : list Reply * World :=
  let index := findIndex id (recipes w) in
  if index =? -1 then ([(StatusNotFound, ErrorH "Recipe not found")], w)
  else
    let w := set_recipes (take (Z.to_nat index) (recipes w)
                          ++ drop (Z.to_nat (index + 1)) (recipes w)) w in
    ([(StatusOK, MessageH "Recipe has been deleted")], w).

(** The inner loop of the search handler over one record's tags. *)
Fixpoint found_loop (tag : string) (tags : list string) (found : bool) : bool :=
  match tags with
  | [] => found
  | t :: tags' => found_loop tag tags' (if Contains t tag then true else found)
  end.

(** The outer loop, with the slice built so far. *)
Fixpoint search_loop (tag : string) (rs listOfRecipes : list Recipe)
  : list Recipe :=
  match rs with
  | [] => listOfRecipes
  | r :: rs' =>
      search_loop tag rs'
        (if found_loop tag (elems (Tags r)) false
         then listOfRecipes ++ [r] else listOfRecipes)
  end.

Definition SearchRecipesHandler (tag : string) (w : World) : list Reply * World :=
  ([(StatusOK, ManyRecipes (search_loop tag (recipes w) []))], w).

Definition serve (req : Request) (w : World) : list Reply * World :=
  match req with
  | POST_recipes body => NewRecipeHandler body w
  | GET_recipes => ListRecipesHandler w
  | PUT_recipes id body => UpdateRecipeHandler id body w
  | DELETE_recipes id => DeleteRecipeHandler id w
  | GET_recipes_search tag => SearchRecipesHandler tag w
  end.

(** Serving requests one after the other; the log pairs each request with
    what was written for it. *)
Fixpoint run (reqs : list Request) (w : World)
  : list (Request * list Reply) * World :=
  match reqs with
  | [] => ([], w)
  | req :: reqs' =>
      let '(replies, w1) := serve req w in
      let '(log, w2) := run reqs' w1 in
      ((req, replies) :: log, w2)
  end.

End Program.

(** The ids of the records a log's create requests answered with. *)
Fixpoint created_ids (log : list (Request * list Reply)) : list string :=
  match log with
  | [] => []
  | (POST_recipes _, [(200, OneRecipe r)]) :: log' => ID r :: created_ids log'
  | _ :: log' => created_ids log'
  end.

End InMemory.

(** ** The database program: handlers over a gorm connection

    The table [recipes] is the list of its rows; [ID] is the primary key
    ([gorm:"primaryKey"]).  The gorm calls are given by what they do to the
    rows of a reachable database: constraint and missing-condition errors
    are in, loss of the connection is not. *)

Module Database.

Definition has_key (id : string) (rows : list Recipe) : bool :=
  existsb (λ row, String.eqb (ID row) id) rows.

(** [db.Create(&recipe)]: one INSERT; the primary key refuses a second row
    with the same id. *)
Definition db_Create (recipe : Recipe) (rows : list Recipe)
  : dbError + list Recipe :=
  if has_key (ID recipe) rows then inl ErrUniqueViolation
  else inr (rows ++ [recipe]).

(** [db.Find(&recipes)]: every row. *)
Definition db_Find (rows : list Recipe) : list Recipe := rows.

(** [db.Where("id = ?", id).First(&dst)] *)
Definition db_First (id : string) (rows : list Recipe) : dbError + Recipe :=
  match find (λ row, String.eqb (ID row) id) rows with
  | Some row => inr row
  | None => inl ErrRecordNotFound
  end.

(** What [Updates] with a struct assigns: the fields of [upd] that are not
    the zero value of their type (the empty string, the nil slice, the zero
    time); the others keep what [old] has. *)
Definition assign_non_zero (upd old : Recipe) : Recipe :=
  mkRecipe
    (if String.eqb (ID upd) "" then ID old else ID upd)
    (if String.eqb (Name upd) "" then Name old else Name upd)
    (match Tags upd with None => Tags old | Some _ => Tags upd end)
    (match Ingredients upd with
     | None => Ingredients old
     | Some _ => Ingredients upd
     end)
    (match Instructions upd with
     | None => Instructions old
     | Some _ => Instructions upd
     end)
    (if IsZero (PublishedAt upd) then PublishedAt old else PublishedAt upd).

(** [db.Model(&model).Updates(&upd)]: one UPDATE of the non-zero fields of
    [upd] on the row whose key is the model's, refused when the model has no
    key; the same fields are assigned to [model].  The result is the model
    and the rows afterwards.  (The handler passes an [upd] whose id is the
    model's, so no key changes.) *)
Definition db_Updates (model upd : Recipe) (rows : list Recipe)
  : dbError + (Recipe * list Recipe) :=
  if String.eqb (ID model) "" then inl ErrMissingWhereClause
  else inr (assign_non_zero upd model,
            map (λ row, if String.eqb (ID row) (ID model)
                        then assign_non_zero upd row else row) rows).

(** [db.Delete(&recipe)]: one DELETE on the key of [recipe], refused when it
    has none. *)
Definition db_Delete (recipe : Recipe) (rows : list Recipe)
  : dbError + list Recipe :=
  if String.eqb (ID recipe) "" then inl ErrMissingWhereClause
  else inr (filter (λ row, ID row ≠ ID recipe) rows).

(** [db.Exec("DELETE FROM recipes")] *)
Definition db_Exec_DELETE_FROM_recipes (rows : list Recipe) : list Recipe := [].

Record World := mkWorld {
  db : list Recipe;
  xids : nat;
  nows : nat
}.

Definition set_db (rows : list Recipe) (w : World) : World :=
  mkWorld rows (xids w) (nows w).

Inductive Request :=
| POST_recipes (body : Bind)
| GET_recipes
| PUT_recipes (id : string) (body : Bind)
| DELETE_recipes (id : string)
| GET_recipes_search (tag : string).

Section Program.

Variable xid_String : nat → string.
Variable clock : nat → Time.

Definition xid_New (w : World) : string * World :=
  (xid_String (xids w), mkWorld (db w) (S (xids w)) (nows w)).

Definition time_Now (w : World) : Time * World :=
  (clock (nows w), mkWorld (db w) (xids w) (S (nows w))).

(** The body of the loop of [loadInitialData] up to the insert. *)
Definition fill_missing (recipe : Recipe) (w : World) : Recipe * World :=
  let '(recipe, w) :=
    if String.eqb (ID recipe) "" then
      let '(id, w) := xid_New w in (set_ID id recipe, w)
    else (recipe, w) in
  if IsZero (PublishedAt recipe) then
    let '(now, w) := time_Now w in (set_PublishedAt now recipe, w)
  else (recipe, w).

(** The records the loop hands to [db.Create], one after the other, when no
    insert fails. *)
Fixpoint fill_all (batch : list Recipe) (w : World) : list Recipe * World :=
  match batch with
  | [] => ([], w)
  | recipe :: rest =>
      let '(recipe, w) := fill_missing recipe w in
      let '(filled, w) := fill_all rest w in
      (recipe :: filled, w)
  end.

(** The loop of [loadInitialData]; [Some fatal] is a [log.Fatalf], which
    ends the process and leaves the table as it is. *)
Fixpoint insert_loop (batch : list Recipe) (w : World) : option Fatal * World :=
  match batch with
  | [] => (None, w)
  | recipe :: rest =>
      let '(recipe, w) := fill_missing recipe w in
      match db_Create recipe (db w) with
      | inl e => (Some (FatalInserting (Name recipe) e), w)
      | inr rows => insert_loop rest (set_db rows w)
      end
  end.

Definition loadInitialData (file : RecipesFile) (w : World)
  : option Fatal * World :=
  match file with
  | ReadError => (Some FatalReading, w)
  | ParseError _ => (Some FatalParsing, w)
  | Parsed recipes =>
      insert_loop recipes (set_db (db_Exec_DELETE_FROM_recipes (db w)) w)
  end.

Definition NewRecipeHandler (body : Bind) (w : World) : list Reply * World :=
  match body with
  | BindErr msg => ([(StatusBadRequest, ErrorH msg)], w)
  | BindOk recipe =>
      let '(id, w) := xid_New w in
      let recipe := set_ID id recipe in
      let '(now, w) := time_Now w in
      let recipe := set_PublishedAt now recipe in
      match db_Create recipe (db w) with
      | inl e => ([(StatusInternalServerError, DriverErrorH e)], w)
      | inr rows => ([(StatusOK, OneRecipe recipe)], set_db rows w)
      end
  end.

Definition ListRecipesHandler (w : World) : list Reply * World :=
  ([(StatusOK, ManyRecipes (db_Find (db w)))], w).

Definition UpdateRecipeHandler (id : string) (body : Bind) (w : World)
  : list Reply * World :=
  match body with
  | BindErr msg => ([(StatusBadRequest, ErrorH msg)], w)
  | BindOk recipe =>
      match db_First id (db w) with
      | inl _ => ([(StatusNotFound, ErrorH "Recipe not found")], w)
      | inr existingRecipe =>
          let recipe := set_ID (ID existingRecipe) recipe in
          let recipe := set_PublishedAt (PublishedAt existingRecipe) recipe in
          match db_Updates existingRecipe recipe (db w) with
          | inl _ =>
              ([(StatusInternalServerError, ErrorH "Failed to update recipe")], w)
          | inr (existingRecipe, rows) =>
              ([(StatusOK, OneRecipe existingRecipe)], set_db rows w)
          end
      end
  end.

Definition DeleteRecipeHandler (id : string) (w : World) : list Reply * World :=
  match db_First id (db w) with
  | inl _ => ([(StatusNotFound, ErrorH "Recipe not found")], w)
  | inr recipe =>
      match db_Delete recipe (db w) with
      | inl _ =>
          ([(StatusInternalServerError, ErrorH "Failed to delete the recipe")], w)
      | inr rows =>
          ([(StatusOK, MessageH "Recipe has been deleted")], set_db rows w)
      end
  end.

(** The inner loop of the search handler: one append per tag that matches. *)
Fixpoint tags_loop (lowerTag : string) (recipe : Recipe) (tags : list string)
  (listOfRecipes : list Recipe) : list Recipe :=
  match tags with
  | [] => listOfRecipes
  | t :: tags' =>
      tags_loop lowerTag recipe tags'
        (if Contains (ToLower t) lowerTag
         then listOfRecipes ++ [recipe] else listOfRecipes)
  end.

Fixpoint search_loop (lowerTag : string) (rs listOfRecipes : list Recipe)
  : list Recipe :=
  match rs with
  | [] => listOfRecipes
  | recipe :: rs' =>
      search_loop lowerTag rs'
        (tags_loop lowerTag recipe (elems (Tags recipe)) listOfRecipes)
  end.

(** The handler writes the 400 for an empty tag and goes on: the branch has
    no [return], so a second [c.JSON] follows it. *)
Definition SearchRecipesHandler (tag : string) (w : World) : list Reply * World :=
  let written :=
    if String.eqb tag "" then [(StatusBadRequest, ErrorH "Tag is required")]
    else [] in
  let recipes := db_Find (db w) in
  let lowerTag := ToLower tag in
  let listOfRecipes := search_loop lowerTag recipes [] in
  (written ++ [(StatusOK, ManyRecipes listOfRecipes)], w).

Definition serve (req : Request) (w : World) : list Reply * World :=
  match req with
  | POST_recipes body => NewRecipeHandler body w
  | GET_recipes => ListRecipesHandler w
  | PUT_recipes id body => UpdateRecipeHandler id body w
  | DELETE_recipes id => DeleteRecipeHandler id w
  | GET_recipes_search tag => SearchRecipesHandler tag w
  end.

Fixpoint run (reqs : list Request) (w : World)
  : list (Request * list Reply) * World :=
  match reqs with
  | [] => ([], w)
  | req :: reqs' =>
      let '(replies, w1) := serve req w in
      let '(log, w2) := run reqs' w1 in
      ((req, replies) :: log, w2)
  end.

End Program.

Fixpoint created_ids (log : list (Request * list Reply)) : list string :=
  match log with
  | [] => []
  | (POST_recipes _, [(200, OneRecipe r)]) :: log' => ID r :: created_ids log'
  | _ :: log' => created_ids log'
  end.

End Database.

(** ** Sample data *)

Module Samples.

(** A generator that never repeats: the [n]-th identifier is ["x"] followed
    by [n] strokes. *)
Fixpoint strokes (n : nat) : string :=
  match n with
  | O => ""
  | S k => String "i" (strokes k)
  end.

Definition xid_sample (n : nat) : string := String "x" (strokes n).

(** A clock that starts at 1000 and moves by one at every reading. *)
Definition clock_sample (n : nat) : Time := 1000 + Z.of_nat n.

Definition recipeA : Recipe :=
  mkRecipe "a" "Carbonara" (Some ["italian"; "pasta"]) (Some ["eggs"])
    (Some ["boil"]) 5.

Definition recipeB : Recipe :=
  mkRecipe "b" "Flan" (Some ["dessert"]) (Some ["milk"]) (Some ["bake"]) 6.

(** A record both of whose tags contain ["pasta"]. *)
Definition recipeP : Recipe :=
  mkRecipe "p" "Salad" (Some ["pasta"; "pasta salad"]) None None 7.

(** A record of [recipes.json] that carries neither id nor timestamp. *)
Definition recipeBare : Recipe :=
  mkRecipe "" "Soup" (Some ["hot"]) None None 0.

(** A request body that sets another id and timestamp and omits the three
    lists. *)
Definition bodyOther : Recipe :=
  mkRecipe "other" "Stew" None None None 9.

End Samples.

(** ** The words of the specification, to state the facts with *)

Module Spec.

(** The match predicate of the search evaluator: some tag of the record,
    lowercased, contains [lowerTag] as a substring. *)
Definition matches (lowerTag : string) (r : Recipe) : Prop :=
  ∃ t : string, t ∈ elems (Tags r) ∧ substring_of lowerTag (ToLower t).

(** The same as a test. *)
Definition matchesb (lowerTag : string) (r : Recipe) : bool :=
  existsb (λ t, Contains (ToLower t) lowerTag) (elems (Tags r)).

(** The ids a store holds, in its order. *)
Definition ids (rs : list Recipe) : list string := map ID rs.

(** What the loops of the two search handlers compute, in closed form: the
    in-memory one keeps a record when some tag contains [tag] byte for byte;
    the database one appends a record once for each tag that, lowercased,
    contains [lowerTag]. *)
Definition in_memory_hit (tag : string) (r : Recipe) : bool :=
  existsb (λ t, Contains t tag) (elems (Tags r)).

Definition hits (lowerTag : string) (r : Recipe) : list Recipe :=
  flat_map (λ t, if Contains (ToLower t) lowerTag then [r] else [])
           (elems (Tags r)).

(** How a record [r'] of the table relates to the record [r] of the file it
    was loaded from: an empty id was replaced by an identifier of the
    generator and a zero timestamp by a reading of the clock, an id or a
    timestamp that was there is kept, and so are the other four fields. *)
Definition loaded_from (xid_String : nat → string) (clock : nat → Time)
  (r r' : Recipe) : Prop :=
  (if String.eqb (ID r) "" then ∃ k : nat, ID r' = xid_String k
   else ID r' = ID r)
  ∧ (if IsZero (PublishedAt r) then ∃ n : nat, PublishedAt r' = clock n
     else PublishedAt r' = PublishedAt r)
  ∧ Name r' = Name r ∧ Tags r' = Tags r
  ∧ Ingredients r' = Ingredients r ∧ Instructions r' = Instructions r.

(** How many of a record's tags, lowercased, contain [lowerTag]. *)
Definition matching_tags (lowerTag : string) (r : Recipe) : nat :=
  length (List.filter (λ t, Contains (ToLower t) lowerTag) (elems (Tags r))).

(** Whether a record has a tag at all. *)
Definition has_tags (r : Recipe) : bool :=
  match elems (Tags r) with
  | [] => false
  | _ :: _ => true
  end.

End Spec.

(** * Facts *)

(** ** Go strings *)

Lemma HasPrefix_true (s prefix : string) :
  HasPrefix s prefix = true ↔ ∃ b : string, s = (prefix ++ b)%string.
Proof.
  revert s. induction prefix as [|p prefix IH]; intros s; simpl.
  - split; [intros _; by exists s | done].
  - destruct s as [|c s].
    + split; [done | intros [b Hb]; discriminate].
    + rewrite andb_true_iff, IH. split.
      * intros [Hc [b ->]]. apply Ascii.eqb_eq in Hc as ->. by exists b.
      * intros [b Hb]. injection Hb as -> ->.
        split; [apply Ascii.eqb_refl | by exists b].
Qed.

Lemma Contains_true (s substr : string) :
  Contains s substr = true ↔ substring_of substr s.
Proof.
  unfold substring_of. induction s as [|c s IH].
  - cbn [Contains]. rewrite orb_false_r, HasPrefix_true. split.
    + intros [b ->]. by exists ""%string, b.
    + intros [a [b Hab]]. destruct a; [by exists b | discriminate].
  - cbn [Contains]. rewrite orb_true_iff, HasPrefix_true, IH. split.
    + intros [[b ->] | [a [b ->]]];
        [by exists ""%string, b | by exists (String c a), b].
    + intros [a [b Hab]]. destruct a as [|c' a].
      * left. by exists b.
      * right. injection Hab as -> ->. by exists a, b.
Qed.

Lemma Contains_empty (s : string) : Contains s "" = true.
Proof. by destruct s. Qed.

Lemma matchesb_true (lowerTag : string) (r : Recipe) :
  Spec.matchesb lowerTag r = true ↔ Spec.matches lowerTag r.
Proof.
  unfold Spec.matchesb, Spec.matches. rewrite existsb_exists. split.
  - intros [t [Hin Ht]]. exists t.
    split; [by apply list_elem_of_In | by apply Contains_true].
  - intros [t [Hin Ht]]. exists t.
    split; [by apply list_elem_of_In | by apply Contains_true].
Qed.

(** ** The lookup loop of the in-memory program *)

Lemma findIndex_from_absent (id : string) (rs : list Recipe) (i index : Z) :
  id ∉ Spec.ids rs → InMemory.findIndex_from id rs i index = index.
Proof.
  revert i index. induction rs as [|r rs IH]; intros i index Hnot; [done|].
  cbn [InMemory.findIndex_from]. unfold Spec.ids in *. cbn [map] in Hnot.
  apply not_elem_of_cons in Hnot as [Hne Hnot].
  destruct (String.eqb_spec (ID r) id) as [Heq|_]; [by subst|].
  by apply IH.
Qed.

Lemma findIndex_from_last (id : string) (l1 : list Recipe) (r : Recipe)
  (l2 : list Recipe) (i index : Z) :
  ID r = id → id ∉ Spec.ids l2 →
  InMemory.findIndex_from id (l1 ++ r :: l2) i index = i + Z.of_nat (length l1).
Proof.
  intros Hr Hl2. revert i index.
  induction l1 as [|x l1 IH]; intros i index.
  - cbn [app InMemory.findIndex_from length].
    rewrite findIndex_from_absent by done.
    destruct (String.eqb_spec (ID r) id); [lia | done].
  - cbn [app InMemory.findIndex_from length]. rewrite IH. lia.
Qed.

(** The last record with a given id splits the store around it. *)
Lemma last_with_id (id : string) (rs : list Recipe) :
  id ∈ Spec.ids rs →
  ∃ l1 r l2, rs = l1 ++ r :: l2 ∧ ID r = id ∧ id ∉ Spec.ids l2.
Proof.
  unfold Spec.ids. induction rs as [|x rs IH]; intros Hin; [by apply elem_of_nil in Hin|].
  destruct (decide (id ∈ map ID rs)) as [Hrs|Hrs].
  - destruct (IH Hrs) as (l1 & r & l2 & -> & Hr & Hl2).
    by exists (x :: l1), r, l2.
  - cbn [map] in Hin. apply elem_of_cons in Hin as [Hx|Hin]; [|done].
    by exists [], x, rs.
Qed.

Lemma findIndex_absent (id : string) (rs : list Recipe) :
  id ∉ Spec.ids rs → InMemory.findIndex id rs = -1.
Proof. apply findIndex_from_absent. Qed.

Lemma findIndex_present (id : string) (rs : list Recipe) :
  id ∈ Spec.ids rs →
  ∃ l1 r l2, rs = l1 ++ r :: l2 ∧ ID r = id ∧ (id ∉ Spec.ids l2) ∧
             InMemory.findIndex id rs = Z.of_nat (length l1).
Proof.
  intros Hin. destruct (last_with_id id rs Hin) as (l1 & r & l2 & -> & Hr & Hl2).
  exists l1, r, l2. repeat split; try done.
  unfold InMemory.findIndex. by rewrite findIndex_from_last.
Qed.

(** The slicing of the delete handler and the assignment of the update
    handler, at the position the lookup found. *)
Lemma take_drop_middle_removed (l1 : list Recipe) (r : Recipe) (l2 : list Recipe) :
  let index := Z.of_nat (length l1) in
  take (Z.to_nat index) (l1 ++ r :: l2)
    ++ drop (Z.to_nat (index + 1)) (l1 ++ r :: l2) = l1 ++ l2.
Proof.
  cbn zeta. replace (Z.to_nat (Z.of_nat (length l1) + 1)) with (S (length l1)) by lia.
  rewrite Nat2Z.id, take_app_length.
  replace (S (length l1)) with (length (l1 ++ [r])) by (rewrite length_app; simpl; lia).
  by rewrite (cons_middle r l1 l2), app_assoc, drop_app_length.
Qed.

Lemma insert_middle_replaced (l1 : list Recipe) (r recipe : Recipe) (l2 : list Recipe) :
  <[Z.to_nat (Z.of_nat (length l1)) := recipe]> (l1 ++ r :: l2) = l1 ++ recipe :: l2.
Proof.
  rewrite Nat2Z.id, insert_app_r_alt by lia. by rewrite Nat.sub_diag.
Qed.

(** ** The in-memory handlers, step by step *)

Lemma in_memory_update_absent (id : string) (recipe : Recipe) (w : InMemory.World) :
  id ∉ Spec.ids (InMemory.recipes w) →
  InMemory.UpdateRecipeHandler id (BindOk recipe) w
  = ([(StatusNotFound, ErrorH "Recipe not found")], w).
Proof.
  intros Hnot. unfold InMemory.UpdateRecipeHandler.
  by rewrite findIndex_absent.
Qed.

Lemma in_memory_delete_absent (id : string) (w : InMemory.World) :
  id ∉ Spec.ids (InMemory.recipes w) →
  InMemory.DeleteRecipeHandler id w
  = ([(StatusNotFound, ErrorH "Recipe not found")], w).
Proof.
  intros Hnot. unfold InMemory.DeleteRecipeHandler.
  by rewrite findIndex_absent.
Qed.

Lemma in_memory_update_found (id : string) (recipe : Recipe) (w : InMemory.World)
  (l1 : list Recipe) (r : Recipe) (l2 : list Recipe) :
  InMemory.recipes w = l1 ++ r :: l2 → ID r = id → id ∉ Spec.ids l2 →
  InMemory.UpdateRecipeHandler id (BindOk recipe) w
  = ([(StatusOK, OneRecipe recipe)], InMemory.set_recipes (l1 ++ recipe :: l2) w).
Proof.
  intros Hw Hr Hl2. unfold InMemory.UpdateRecipeHandler, InMemory.findIndex.
  rewrite Hw, findIndex_from_last by done. rewrite Z.add_0_l.
  destruct (Z.eqb_spec (Z.of_nat (length l1)) (-1)); [lia|].
  by rewrite insert_middle_replaced.
Qed.

Lemma in_memory_delete_found (id : string) (w : InMemory.World)
  (l1 : list Recipe) (r : Recipe) (l2 : list Recipe) :
  InMemory.recipes w = l1 ++ r :: l2 → ID r = id → id ∉ Spec.ids l2 →
  InMemory.DeleteRecipeHandler id w
  = ([(StatusOK, MessageH "Recipe has been deleted")],
     InMemory.set_recipes (l1 ++ l2) w).
Proof.
  intros Hw Hr Hl2. unfold InMemory.DeleteRecipeHandler, InMemory.findIndex.
  rewrite Hw, findIndex_from_last by done. rewrite Z.add_0_l.
  destruct (Z.eqb_spec (Z.of_nat (length l1)) (-1)); [lia|].
  by rewrite (take_drop_middle_removed l1 r l2).
Qed.

(** The two loops of the in-memory search are a filter of the store. *)
Lemma in_memory_found_loop (tag : string) (tags : list string) (found : bool) :
  InMemory.found_loop tag tags found
  = found || existsb (λ t, Contains t tag) tags.
Proof.
  revert found. induction tags as [|t tags IH]; intros found; simpl.
  - by rewrite orb_false_r.
  - rewrite IH. by destruct (Contains t tag), found.
Qed.

Lemma in_memory_search_loop (tag : string) (rs acc : list Recipe) :
  InMemory.search_loop tag rs acc = acc ++ List.filter (Spec.in_memory_hit tag) rs.
Proof.
  revert acc. induction rs as [|r rs IH]; intros acc; simpl.
  - by rewrite app_nil_r.
  - rewrite IH, in_memory_found_loop. unfold Spec.in_memory_hit at 2. simpl.
    destruct (existsb _ _); [by rewrite <- app_assoc | done].
Qed.

(** ** The gorm calls *)

Lemma has_key_true (id : string) (rows : list Recipe) :
  Database.has_key id rows = true ↔ id ∈ Spec.ids rows.
Proof.
  unfold Database.has_key, Spec.ids. rewrite existsb_exists, list_elem_of_fmap.
  split.
  - intros [row [Hin Heq]]. apply String.eqb_eq in Heq.
    exists row. split; [done | by apply list_elem_of_In].
  - intros [row [-> Hin]]. exists row.
    split; [by apply list_elem_of_In | apply String.eqb_refl].
Qed.

Lemma db_First_absent (id : string) (rows : list Recipe) :
  id ∉ Spec.ids rows → Database.db_First id rows = inl ErrRecordNotFound.
Proof.
  intros Hnot. unfold Database.db_First.
  destruct (find _ rows) as [row|] eqn:Hfind; [|done].
  apply find_some in Hfind as [Hin Heq]. apply String.eqb_eq in Heq.
  exfalso. apply Hnot. unfold Spec.ids. rewrite list_elem_of_fmap.
  exists row. split; [done | by apply list_elem_of_In].
Qed.

Lemma db_First_present (id : string) (rows : list Recipe) :
  id ∈ Spec.ids rows →
  ∃ row, Database.db_First id rows = inr row ∧ ID row = id ∧ row ∈ rows.
Proof.
  intros Hin. unfold Database.db_First.
  destruct (find _ rows) as [row|] eqn:Hfind.
  - apply find_some in Hfind as [Hrow Heq]. apply String.eqb_eq in Heq.
    exists row. repeat split; [done | by apply list_elem_of_In].
  - exfalso. unfold Spec.ids in Hin. apply list_elem_of_fmap in Hin as [row [-> Hrow]].
    apply list_elem_of_In in Hrow.
    pose proof (find_none _ _ Hfind row Hrow) as Hne. simpl in Hne.
    by rewrite String.eqb_refl in Hne.
Qed.

Lemma ids_filter_out (id : string) (rows : list Recipe) :
  id ∉ Spec.ids (filter (λ row, ID row ≠ id) rows).
Proof.
  unfold Spec.ids. rewrite list_elem_of_fmap. intros [row [-> Hin]].
  apply list_elem_of_filter in Hin as [Hne _]. done.
Qed.

(** The two loops of the database search: every record once per tag that
    matches ([hits]), in the order of the rows. *)
Lemma database_tags_loop (lowerTag : string) (r : Recipe) (tags : list string)
  (acc : list Recipe) :
  Database.tags_loop lowerTag r tags acc
  = acc ++ flat_map (λ t, if Contains (ToLower t) lowerTag then [r] else []) tags.
Proof.
  revert acc. induction tags as [|t tags IH]; intros acc; simpl.
  - by rewrite app_nil_r.
  - rewrite IH. destruct (Contains _ _); [by rewrite <- app_assoc | done].
Qed.

Lemma database_search_loop (lowerTag : string) (rs acc : list Recipe) :
  Database.search_loop lowerTag rs acc = acc ++ flat_map (Spec.hits lowerTag) rs.
Proof.
  revert acc. induction rs as [|r rs IH]; intros acc; simpl.
  - by rewrite app_nil_r.
  - rewrite IH, database_tags_loop. by rewrite <- app_assoc.
Qed.

Lemma elem_of_hits (lowerTag : string) (r x : Recipe) :
  x ∈ Spec.hits lowerTag r ↔ x = r ∧ Spec.matchesb lowerTag r = true.
Proof.
  unfold Spec.hits, Spec.matchesb. rewrite list_elem_of_In, in_flat_map, existsb_exists.
  split.
  - intros [t [Hin Hx]]. destruct (Contains _ _) eqn:Hc; [|by destruct Hx].
    destruct Hx as [->|[]]. eauto.
  - intros [-> [t [Hin Hc]]]. exists t. rewrite Hc. split; [done | by left].
Qed.

(** * The claims *)

(** ** Update and delete on an id the store does not hold *)

(** C9.  For every store contents and every id that no record of the store
    has, the update handler (on a body that binds) and the delete handler
    write only the 404 "Recipe not found" and leave the whole state of the
    process as it was: nothing is added, removed or changed.  This holds of
    the in-memory program and of the database program alike. *)
Theorem absent_id_not_found_and_no_change
  (rs : list Recipe) (id : string) (recipe : Recipe) (xn nn : nat) :
  id ∉ Spec.ids rs →
  (InMemory.UpdateRecipeHandler id (BindOk recipe) (InMemory.mkWorld rs xn nn)
   = ([(StatusNotFound, ErrorH "Recipe not found")], InMemory.mkWorld rs xn nn)
   ∧ InMemory.DeleteRecipeHandler id (InMemory.mkWorld rs xn nn)
     = ([(StatusNotFound, ErrorH "Recipe not found")], InMemory.mkWorld rs xn nn))
  ∧
  (Database.UpdateRecipeHandler id (BindOk recipe) (Database.mkWorld rs xn nn)
   = ([(StatusNotFound, ErrorH "Recipe not found")], Database.mkWorld rs xn nn)
   ∧ Database.DeleteRecipeHandler id (Database.mkWorld rs xn nn)
     = ([(StatusNotFound, ErrorH "Recipe not found")], Database.mkWorld rs xn nn)).
Proof.
  intros Hnot. split; split.
  - by apply in_memory_update_absent.
  - by apply in_memory_delete_absent.
  - unfold Database.UpdateRecipeHandler. cbn [Database.db].
    by rewrite db_First_absent.
  - unfold Database.DeleteRecipeHandler. cbn [Database.db].
    by rewrite db_First_absent.
Qed.

Lemma absent_id_not_found_and_no_change_witness :
  ("zz" ∉ Spec.ids [Samples.recipeA; Samples.recipeB])
  ∧ InMemory.DeleteRecipeHandler "zz"
      (InMemory.mkWorld [Samples.recipeA; Samples.recipeB] 2 2)
    = ([(StatusNotFound, ErrorH "Recipe not found")],
       InMemory.mkWorld [Samples.recipeA; Samples.recipeB] 2 2).
Proof.
  assert (Hnot : "zz" ∉ Spec.ids [Samples.recipeA; Samples.recipeB]).
  { apply (bool_decide_unpack _). vm_compute. exact I. }
  split; [exact Hnot|].
  exact (proj2 (proj1 (absent_id_not_found_and_no_change
    [Samples.recipeA; Samples.recipeB] "zz" Samples.bodyOther 2 2 Hnot))).
Defined.

(** ** Positions in the in-memory store *)

(** C10.  In the in-memory program, when some record has the id, the store
    splits around the record [r] the lookup finds; the delete handler leaves
    exactly the records before it followed by the records after it, and the
    update handler leaves the same records with the body in the place of
    [r]: the length is the same, the body sits at the position [r] had, and
    every other position holds what it held. *)
Theorem in_memory_mutations_keep_positions
  (w : InMemory.World) (id : string) (recipe : Recipe) :
  id ∈ Spec.ids (InMemory.recipes w) →
  ∃ l1 r l2,
    InMemory.recipes w = l1 ++ r :: l2 ∧ ID r = id ∧
    InMemory.recipes (InMemory.DeleteRecipeHandler id w).2 = l1 ++ l2 ∧
    InMemory.recipes (InMemory.UpdateRecipeHandler id (BindOk recipe) w).2
      = l1 ++ recipe :: l2 ∧
    InMemory.recipes (InMemory.UpdateRecipeHandler id (BindOk recipe) w).2
      !! length l1 = Some recipe ∧
    ∀ j : nat, j ≠ length l1 →
      InMemory.recipes (InMemory.UpdateRecipeHandler id (BindOk recipe) w).2 !! j
      = InMemory.recipes w !! j.
Proof.
  intros Hin.
  destruct (findIndex_present id _ Hin) as (l1 & r & l2 & Hw & Hr & Hl2 & _).
  exists l1, r, l2.
  rewrite (in_memory_delete_found id w l1 r l2 Hw Hr Hl2).
  rewrite (in_memory_update_found id recipe w l1 r l2 Hw Hr Hl2).
  cbn [snd InMemory.set_recipes InMemory.recipes]. rewrite Hw.
  repeat split; try done.
  - by rewrite list_lookup_middle.
  - intros j Hj. destruct (decide (j < length l1)%nat) as [Hlt|Hge].
    + by rewrite !lookup_app_l.
    + rewrite !lookup_app_r by lia.
      destruct (j - length l1)%nat as [|k] eqn:Hk; [lia | done].
Qed.

Lemma in_memory_mutations_keep_positions_witness :
  "a" ∈ Spec.ids [Samples.recipeA; Samples.recipeB]
  ∧ ∃ l1 r l2,
      [Samples.recipeA; Samples.recipeB] = l1 ++ r :: l2 ∧ ID r = "a" ∧
      InMemory.recipes (InMemory.DeleteRecipeHandler "a"
        (InMemory.mkWorld [Samples.recipeA; Samples.recipeB] 2 2)).2 = l1 ++ l2.
Proof.
  assert (Hin : "a" ∈ Spec.ids [Samples.recipeA; Samples.recipeB]).
  { apply (bool_decide_unpack _). vm_compute. exact I. }
  split; [exact Hin|].
  destruct (in_memory_mutations_keep_positions
    (InMemory.mkWorld [Samples.recipeA; Samples.recipeB] 2 2) "a"
    Samples.bodyOther Hin) as (l1 & r & l2 & Hw & Hr & Hdel & _).
  exists l1, r, l2. auto.
Defined.

(** ** Delete, then look the id up *)

Lemma ids_app (l1 l2 : list Recipe) : Spec.ids (l1 ++ l2) = Spec.ids l1 ++ Spec.ids l2.
Proof. apply map_app. Qed.

Lemma not_in_ids (id : string) (rs : list Recipe) :
  id ∉ Spec.ids rs ↔ ∀ r, r ∈ rs → ID r ≠ id.
Proof.
  unfold Spec.ids. rewrite list_elem_of_fmap. split.
  - intros Hnot r Hr Heq. apply Hnot. by exists r.
  - intros Hall [r [-> Hr]]. by apply (Hall r).
Qed.

Lemma in_memory_search_within (tag : string) (rs : list Recipe) (r : Recipe) :
  r ∈ InMemory.search_loop tag rs [] → r ∈ rs.
Proof.
  rewrite in_memory_search_loop, app_nil_l, !list_elem_of_In, filter_In. tauto.
Qed.

Lemma database_search_within (lowerTag : string) (rs : list Recipe) (r : Recipe) :
  r ∈ Database.search_loop lowerTag rs [] → r ∈ rs.
Proof.
  rewrite database_search_loop, app_nil_l, list_elem_of_In, in_flat_map.
  intros [x [Hx Hr]]. apply list_elem_of_In in Hx, Hr.
  apply elem_of_hits in Hr as [-> _]. done.
Qed.

(** X22.  For every store whose records have pairwise distinct ids and
    every id some record has, the id not empty, the delete handler of either
    program writes the 200 with the message "Recipe has been deleted"; in
    the state it leaves, the lookup of that id finds nothing (the in-memory
    loop ends at -1 and a second delete is answered 404; the database
    [First] gives "record not found"), no record of the store, which is what
    the list handler writes, has the id, and no search returns a record with
    the id. *)
Theorem delete_then_lookup_not_found
  (rs : list Recipe) (id : string) (xn nn : nat) :
  id ∈ Spec.ids rs → NoDup (Spec.ids rs) → id ≠ "" →
  (∃ rs',
     InMemory.DeleteRecipeHandler id (InMemory.mkWorld rs xn nn)
     = ([(StatusOK, MessageH "Recipe has been deleted")],
        InMemory.mkWorld rs' xn nn)
     ∧ InMemory.findIndex id rs' = -1
     ∧ InMemory.DeleteRecipeHandler id (InMemory.mkWorld rs' xn nn)
       = ([(StatusNotFound, ErrorH "Recipe not found")],
          InMemory.mkWorld rs' xn nn)
     ∧ InMemory.ListRecipesHandler (InMemory.mkWorld rs' xn nn)
       = ([(StatusOK, ManyRecipes rs')], InMemory.mkWorld rs' xn nn)
     ∧ (∀ r, r ∈ rs' → ID r ≠ id)
     ∧ (∀ tag r, r ∈ InMemory.search_loop tag rs' [] → ID r ≠ id))
  ∧
  (∃ rows',
     Database.DeleteRecipeHandler id (Database.mkWorld rs xn nn)
     = ([(StatusOK, MessageH "Recipe has been deleted")],
        Database.mkWorld rows' xn nn)
     ∧ Database.db_First id rows' = inl ErrRecordNotFound
     ∧ Database.DeleteRecipeHandler id (Database.mkWorld rows' xn nn)
       = ([(StatusNotFound, ErrorH "Recipe not found")],
          Database.mkWorld rows' xn nn)
     ∧ Database.ListRecipesHandler (Database.mkWorld rows' xn nn)
       = ([(StatusOK, ManyRecipes rows')], Database.mkWorld rows' xn nn)
     ∧ (∀ r, r ∈ rows' → ID r ≠ id)
     ∧ (∀ lowerTag r, r ∈ Database.search_loop lowerTag rows' [] → ID r ≠ id)).
Proof.
  intros Hin Hnodup Hne. split.
  - destruct (findIndex_present id rs Hin) as (l1 & r & l2 & -> & Hr & Hl2 & _).
    assert (Hgone : id ∉ Spec.ids (l1 ++ l2)).
    { rewrite ids_app in *. unfold Spec.ids in Hnodup. cbn [map] in Hnodup.
      apply NoDup_app in Hnodup as (_ & Hdisj & _).
      rewrite not_elem_of_app. split; [|done].
      intros Hl1. apply (Hdisj id Hl1). rewrite Hr. by left. }
    exists (l1 ++ l2). repeat split.
    + by rewrite (in_memory_delete_found id _ l1 r l2).
    + by apply findIndex_absent.
    + by apply in_memory_delete_absent.
    + by apply not_in_ids.
    + intros tag x Hx. apply in_memory_search_within in Hx.
      by apply (proj1 (not_in_ids id (l1 ++ l2)) Hgone).
  - destruct (db_First_present id rs Hin) as (row & Hfirst & Hrow & _).
    pose proof (ids_filter_out id rs) as Hgone.
    exists (filter (λ x, ID x ≠ id) rs). repeat split.
    + unfold Database.DeleteRecipeHandler, Database.db_Delete. cbn [Database.db].
      rewrite Hfirst, Hrow.
      destruct (String.eqb_spec id ""); [done|]. done.
    + by apply db_First_absent.
    + unfold Database.DeleteRecipeHandler. cbn [Database.db].
      by rewrite db_First_absent.
    + by apply not_in_ids.
    + intros lowerTag x Hx. apply database_search_within in Hx.
      by apply (proj1 (not_in_ids id _) Hgone).
Qed.

(** The in-memory handler removes the last record with the id only.  With
    two records of id "a" in the store (which an update whose body carries
    another record's id produces), one is left after the delete and the
    lookup finds it. *)
Lemma in_memory_delete_removes_the_last_duplicate :
  InMemory.DeleteRecipeHandler "a"
    (InMemory.mkWorld [Samples.recipeA; set_ID "a" Samples.recipeB] 2 2)
  = ([(StatusOK, MessageH "Recipe has been deleted")],
     InMemory.mkWorld [Samples.recipeA] 2 2)
  ∧ InMemory.findIndex "a" [Samples.recipeA] = 0.
Proof. split; vm_compute; reflexivity. Qed.

(** C8.  In the in-memory program a delete can answer 200 and leave a
    record with the id behind.  From the empty store, with a generator that
    gives "x" and then "xi": two creates store records with ids "x" and
    "xi"; the update of "xi" with a body whose id is "x" stores that body,
    so two records have the id "x"; the delete of "x" writes the 200 with
    the message and removes the last of them only.  In the state it leaves,
    the lookup of "x" ends at position 0, not at -1, and an update of "x" is
    answered 200, not 404. *)
Theorem in_memory_delete_can_leave_the_id_in_the_store :
  InMemory.run Samples.xid_sample Samples.clock_sample
    [InMemory.POST_recipes (BindOk Samples.bodyOther);
     InMemory.POST_recipes (BindOk Samples.bodyOther);
     InMemory.PUT_recipes "xi" (BindOk (set_ID "x" Samples.bodyOther));
     InMemory.DELETE_recipes "x"]
    (InMemory.mkWorld [] 0 0)
  = ([(InMemory.POST_recipes (BindOk Samples.bodyOther),
       [(StatusOK, OneRecipe (mkRecipe "x" "Stew" None None None 1000))]);
      (InMemory.POST_recipes (BindOk Samples.bodyOther),
       [(StatusOK, OneRecipe (mkRecipe "xi" "Stew" None None None 1001))]);
      (InMemory.PUT_recipes "xi" (BindOk (set_ID "x" Samples.bodyOther)),
       [(StatusOK, OneRecipe (mkRecipe "x" "Stew" None None None 9))]);
      (InMemory.DELETE_recipes "x",
       [(StatusOK, MessageH "Recipe has been deleted")])],
     InMemory.mkWorld [mkRecipe "x" "Stew" None None None 1000] 2 2)
  ∧ InMemory.findIndex "x" [mkRecipe "x" "Stew" None None None 1000] = 0
  ∧ InMemory.UpdateRecipeHandler "x" (BindOk Samples.bodyOther)
      (InMemory.mkWorld [mkRecipe "x" "Stew" None None None 1000] 2 2)
    = ([(StatusOK, OneRecipe Samples.bodyOther)],
       InMemory.mkWorld [Samples.bodyOther] 2 2).
Proof. repeat split; vm_compute; reflexivity. Qed.

Lemma delete_then_lookup_not_found_witness :
  ("a" ∈ Spec.ids [Samples.recipeA; Samples.recipeB])
  ∧ NoDup (Spec.ids [Samples.recipeA; Samples.recipeB])
  ∧ "a" ≠ ""
  ∧ ∃ rs',
      InMemory.DeleteRecipeHandler "a"
        (InMemory.mkWorld [Samples.recipeA; Samples.recipeB] 2 2)
      = ([(StatusOK, MessageH "Recipe has been deleted")],
         InMemory.mkWorld rs' 2 2)
      ∧ InMemory.findIndex "a" rs' = -1.
Proof.
  assert (Hin : "a" ∈ Spec.ids [Samples.recipeA; Samples.recipeB]).
  { apply (bool_decide_unpack _). vm_compute. exact I. }
  assert (Hnodup : NoDup (Spec.ids [Samples.recipeA; Samples.recipeB])).
  { apply (bool_decide_unpack _). vm_compute. exact I. }
  assert (Hne : "a" ≠ "") by discriminate.
  repeat split; try assumption.
  destruct (proj1 (delete_then_lookup_not_found
    [Samples.recipeA; Samples.recipeB] "a" 2 2 Hin Hnodup Hne))
    as (rs' & Hdel & Hidx & _).
  exists rs'. auto.
Defined.

(** ** Update: what is kept and what is replaced *)

(** In the in-memory program the record stored after an update is the body,
    whole: the four content fields, and the id and the timestamp with them. *)
Lemma in_memory_update_stores_the_body
  (rs : list Recipe) (id : string) (recipe : Recipe) (xn nn : nat) :
  id ∈ Spec.ids rs →
  ∃ l1 r l2,
    rs = l1 ++ r :: l2 ∧ ID r = id ∧
    InMemory.UpdateRecipeHandler id (BindOk recipe) (InMemory.mkWorld rs xn nn)
    = ([(StatusOK, OneRecipe recipe)],
       InMemory.mkWorld (l1 ++ recipe :: l2) xn nn).
Proof.
  intros Hin.
  destruct (findIndex_present id rs Hin) as (l1 & r & l2 & -> & Hr & Hl2 & _).
  exists l1, r, l2. repeat split; [done|].
  by rewrite (in_memory_update_found id recipe _ l1 r l2).
Qed.

(** In the database program the record written back, and the row it updates,
    have the id and the timestamp of the row found, whatever the body says. *)
Lemma database_update_keeps_id_and_publishedAt
  (rs : list Recipe) (id : string) (recipe : Recipe) (xn nn : nat) :
  id ∈ Spec.ids rs → NoDup (Spec.ids rs) → id ≠ "" →
  ∃ existingRecipe updated rows',
    Database.db_First id rs = inr existingRecipe ∧
    Database.UpdateRecipeHandler id (BindOk recipe) (Database.mkWorld rs xn nn)
    = ([(StatusOK, OneRecipe updated)], Database.mkWorld rows' xn nn) ∧
    ID updated = id ∧ PublishedAt updated = PublishedAt existingRecipe ∧
    Spec.ids rows' = Spec.ids rs ∧ map PublishedAt rows' = map PublishedAt rs.
Proof.
  intros Hin Hnodup Hne.
  destruct (db_First_present id rs Hin) as (ex & Hfirst & Hex & Hexin).
  eexists ex, _, _. split; [exact Hfirst|].
  unfold Database.UpdateRecipeHandler, Database.db_Updates. cbn [Database.db].
  rewrite Hfirst, Hex.
  destruct (String.eqb_spec id ""); [done|].
  split; [reflexivity|].
  unfold Database.assign_non_zero, set_PublishedAt, set_ID; cbn.
  rewrite Hex. destruct (String.eqb_spec id ""); [done|].
  repeat split.
  - by destruct (IsZero (PublishedAt ex)).
  - unfold Spec.ids. rewrite map_map. apply map_ext. intros row.
    destruct (String.eqb_spec (ID row) id); by cbn.
  - rewrite map_map. apply map_ext_in. intros row Hrow.
    destruct (String.eqb_spec (ID row) id) as [Hid|Hid]; cbn; [|done].
    destruct (IsZero (PublishedAt ex)); [done|].
    f_equal. apply list_elem_of_In in Hrow.
    apply list_elem_of_lookup in Hrow as [i Hi], Hexin as [j Hj].
    assert (i = j) as ->; [|congruence].
    apply (NoDup_lookup (Spec.ids rs) i j id); [done| |].
    + unfold Spec.ids. by rewrite list_lookup_fmap, Hi, <- Hid.
    + unfold Spec.ids. by rewrite list_lookup_fmap, Hj, <- Hex.
Qed.

(** C1.  The in-memory update handler stores and returns the body as it was
    bound, its id and timestamp included.  On the store [recipeA; recipeB]
    (ids "a" and "b", timestamps 5 and 6), the update of "a" with a body
    whose id is "other" and whose timestamp is 9 leaves a first record with
    id "other" and timestamp 9, and writes that record back. *)
Theorem in_memory_update_takes_id_and_publishedAt_from_body :
  InMemory.UpdateRecipeHandler "a" (BindOk Samples.bodyOther)
    (InMemory.mkWorld [Samples.recipeA; Samples.recipeB] 2 2)
  = ([(StatusOK, OneRecipe Samples.bodyOther)],
     InMemory.mkWorld [Samples.bodyOther; Samples.recipeB] 2 2)
  ∧ ID Samples.bodyOther = "other" ∧ ID Samples.recipeA = "a"
  ∧ PublishedAt Samples.bodyOther = 9 ∧ PublishedAt Samples.recipeA = 5.
Proof. repeat split; vm_compute; reflexivity. Qed.

(** C2.  The database update handler assigns only the fields of the body
    that are not zero values.  On the table [recipeA; recipeB], the update
    of "a" with a body that gives the name "Stew" and omits tags,
    ingredients and instructions leaves a row with the new name and with the
    tags, ingredients and instructions it had before. *)
Theorem database_update_keeps_omitted_fields :
  Database.UpdateRecipeHandler "a" (BindOk Samples.bodyOther)
    (Database.mkWorld [Samples.recipeA; Samples.recipeB] 2 2)
  = ([(StatusOK,
       OneRecipe (mkRecipe "a" "Stew" (Some ["italian"; "pasta"])
                    (Some ["eggs"]) (Some ["boil"]) 5))],
     Database.mkWorld
       [mkRecipe "a" "Stew" (Some ["italian"; "pasta"])
          (Some ["eggs"]) (Some ["boil"]) 5;
        Samples.recipeB] 2 2)
  ∧ Tags Samples.bodyOther = None
  ∧ Tags Samples.recipeA = Some ["italian"; "pasta"].
Proof. repeat split; vm_compute; reflexivity. Qed.

(** ** Search *)

(** The database search returns a record exactly when it is a row and one of
    its tags, lowercased, contains the lowercased search tag. *)
Lemma database_search_returns_the_matches
  (tag : string) (rows : list Recipe) (r : Recipe) :
  r ∈ Database.search_loop (ToLower tag) rows []
  ↔ r ∈ rows ∧ Spec.matches (ToLower tag) r.
Proof.
  rewrite database_search_loop, app_nil_l, list_elem_of_In, in_flat_map.
  rewrite <- matchesb_true. split.
  - intros [x [Hx Hr]]. apply list_elem_of_In in Hx, Hr.
    apply elem_of_hits in Hr as [-> Hm]. done.
  - intros [Hr Hm]. exists r. split; [by apply list_elem_of_In|].
    apply list_elem_of_In, elem_of_hits. done.
Qed.

(** The in-memory search returns, once each and in the order of the store,
    the records one of whose tags contains the search tag byte for byte. *)
Lemma in_memory_search_is_a_filter (tag : string) (w : InMemory.World) :
  InMemory.SearchRecipesHandler tag w
  = ([(StatusOK,
       ManyRecipes (List.filter (Spec.in_memory_hit tag) (InMemory.recipes w)))],
     w).
Proof.
  unfold InMemory.SearchRecipesHandler. by rewrite in_memory_search_loop.
Qed.

(** With the empty tag the database handler writes the 400 and then the 200
    with every row, once per tag the row has. *)
Lemma database_search_empty_tag (w : Database.World) :
  (Database.SearchRecipesHandler "" w).1
  = [(StatusBadRequest, ErrorH "Tag is required");
     (StatusOK,
      ManyRecipes
        (flat_map (λ r, map (λ _, r) (elems (Tags r))) (Database.db w)))].
Proof.
  unfold Database.SearchRecipesHandler, Database.db_Find.
  cbn [String.eqb ToLower fst app]. rewrite database_search_loop, app_nil_l.
  do 2 f_equal. f_equal. f_equal. apply flat_map_ext. intros r. unfold Spec.hits.
  induction (elems (Tags r)) as [|t ts IH]; [done|].
  cbn [flat_map map]. by rewrite Contains_empty, IH.
Qed.

(** The scenario of the specification on the database program: "sser"
    finds the record tagged "Dessert", "PASTA" finds exactly the record
    tagged "pasta", and "xyz" finds nothing. *)
Lemma database_search_scenario :
  (Database.SearchRecipesHandler "sser"
     (Database.mkWorld [mkRecipe "d" "Flan" (Some ["Dessert"]) None None 8] 2 2)).1
  = [(StatusOK, ManyRecipes [mkRecipe "d" "Flan" (Some ["Dessert"]) None None 8])]
  ∧ (Database.SearchRecipesHandler "PASTA"
       (Database.mkWorld [Samples.recipeA; Samples.recipeB] 2 2)).1
    = [(StatusOK, ManyRecipes [Samples.recipeA])]
  ∧ (Database.SearchRecipesHandler "xyz"
       (Database.mkWorld [Samples.recipeA; Samples.recipeB] 2 2)).1
    = [(StatusOK, ManyRecipes [])].
Proof. repeat split; vm_compute; reflexivity. Qed.

(** C3.  The in-memory search compares bytes, not lowercased text.  On the
    store [recipeA; recipeB], where [recipeA] is tagged "italian" and
    "pasta", the search for "PASTA" returns no record, although [recipeA]
    satisfies the match predicate for the lowercased tag. *)
Theorem in_memory_search_is_case_sensitive :
  InMemory.SearchRecipesHandler "PASTA"
    (InMemory.mkWorld [Samples.recipeA; Samples.recipeB] 2 2)
  = ([(StatusOK, ManyRecipes [])],
     InMemory.mkWorld [Samples.recipeA; Samples.recipeB] 2 2)
  ∧ Spec.matches (ToLower "PASTA") Samples.recipeA.
Proof.
  split; [vm_compute; reflexivity|].
  apply matchesb_true. vm_compute. reflexivity.
Qed.

(** C4.  No variant stops on an empty tag.  On the table
    [recipeA; recipeB] the database handler writes the 400 "Tag is required"
    and then a 200 with the rows (the first twice, having two tags); the
    in-memory handler, which has no test of the tag, writes only a 200 with
    both records.  Neither changes the state. *)
Theorem search_with_empty_tag_returns_records :
  Database.SearchRecipesHandler ""
    (Database.mkWorld [Samples.recipeA; Samples.recipeB] 2 2)
  = ([(StatusBadRequest, ErrorH "Tag is required");
      (StatusOK,
       ManyRecipes [Samples.recipeA; Samples.recipeA; Samples.recipeB])],
     Database.mkWorld [Samples.recipeA; Samples.recipeB] 2 2)
  ∧ InMemory.SearchRecipesHandler ""
      (InMemory.mkWorld [Samples.recipeA; Samples.recipeB] 2 2)
    = ([(StatusOK, ManyRecipes [Samples.recipeA; Samples.recipeB])],
       InMemory.mkWorld [Samples.recipeA; Samples.recipeB] 2 2).
Proof. split; vm_compute; reflexivity. Qed.

(** C5.  The database search appends a record once for every tag that
    matches.  On the table [recipeP; recipeB], where [recipeP] is tagged
    "pasta" and "pasta salad", the search for "pasta" returns [recipeP]
    twice. *)
Theorem database_search_repeats_a_record_per_matching_tag :
  Database.SearchRecipesHandler "pasta"
    (Database.mkWorld [Samples.recipeP; Samples.recipeB] 2 2)
  = ([(StatusOK, ManyRecipes [Samples.recipeP; Samples.recipeP])],
     Database.mkWorld [Samples.recipeP; Samples.recipeB] 2 2)
  ∧ Tags Samples.recipeP = Some ["pasta"; "pasta salad"].
Proof. split; vm_compute; reflexivity. Qed.

(** ** The load at start-up *)

Section Load.

Variable xid_String : nat → string.
Variable clock : nat → Time.

(** What the loop body does to one record: an empty id becomes the next
    identifier, a zero timestamp the next reading of the clock; an id or a
    timestamp that is there stays, and so do the other fields. *)
Lemma fill_missing_fields (recipe : Recipe) (w : Database.World) :
  let '(filled, w') := Database.fill_missing xid_String clock recipe w in
  ID filled = (if String.eqb (ID recipe) "" then xid_String (Database.xids w)
               else ID recipe)
  ∧ PublishedAt filled = (if IsZero (PublishedAt recipe)
                          then clock (Database.nows w) else PublishedAt recipe)
  ∧ Name filled = Name recipe ∧ Tags filled = Tags recipe
  ∧ Ingredients filled = Ingredients recipe
  ∧ Instructions filled = Instructions recipe
  ∧ Database.db w' = Database.db w.
Proof.
  unfold Database.fill_missing, Database.xid_New, Database.time_Now.
  destruct (String.eqb (ID recipe) ""), (IsZero (PublishedAt recipe)) eqn:Hz;
    cbn; rewrite ?Hz; cbn; repeat split; done.
Qed.

Lemma fill_missing_set_db
  (recipe : Recipe) (rows : list Recipe) (w : Database.World) :
  Database.fill_missing xid_String clock recipe (Database.set_db rows w)
  = ((Database.fill_missing xid_String clock recipe w).1,
     Database.set_db rows (Database.fill_missing xid_String clock recipe w).2).
Proof.
  unfold Database.fill_missing, Database.xid_New, Database.time_Now.
  destruct (String.eqb (ID recipe) ""), (IsZero (PublishedAt recipe)) eqn:Hz;
    cbn; rewrite ?Hz; cbn; done.
Qed.

Lemma fill_all_set_db
  (batch : list Recipe) (rows : list Recipe) (w : Database.World) :
  Database.fill_all xid_String clock batch (Database.set_db rows w)
  = ((Database.fill_all xid_String clock batch w).1,
     Database.set_db rows (Database.fill_all xid_String clock batch w).2).
Proof.
  revert w. induction batch as [|recipe rest IH]; intros w; [done|].
  cbn [Database.fill_all]. rewrite fill_missing_set_db.
  destruct (Database.fill_missing xid_String clock recipe w) as [filled w1].
  cbn [fst snd]. rewrite IH.
  by destruct (Database.fill_all xid_String clock rest w1).
Qed.

Lemma insert_loop_no_clash (batch : list Recipe) (w : Database.World) :
  NoDup (Spec.ids (Database.db w
                   ++ (Database.fill_all xid_String clock batch w).1)) →
  Database.insert_loop xid_String clock batch w
  = (None,
     Database.set_db
       (Database.db w ++ (Database.fill_all xid_String clock batch w).1)
       (Database.fill_all xid_String clock batch w).2).
Proof.
  revert w. induction batch as [|recipe rest IH]; intros w Hnodup.
  - cbn. rewrite app_nil_r. by destruct w.
  - cbn [Database.insert_loop Database.fill_all] in *.
    pose proof (fill_missing_fields recipe w) as Hf.
    destruct (Database.fill_missing xid_String clock recipe w) as [filled w1].
    destruct Hf as (_ & _ & _ & _ & _ & _ & Hdb).
    destruct (Database.fill_all xid_String clock rest w1) as [more w2] eqn:Hrest.
    cbn [fst snd] in *. unfold Database.db_Create.
    destruct (Database.has_key (ID filled) (Database.db w1)) eqn:Hkey.
    + exfalso. apply has_key_true in Hkey. rewrite Hdb in Hkey.
      rewrite ids_app in Hnodup. apply NoDup_app in Hnodup as (_ & Hdisj & _).
      apply (Hdisj _ Hkey). unfold Spec.ids. cbn. by left.
    + rewrite IH; rewrite fill_all_set_db, Hrest;
        cbn [fst snd Database.db Database.set_db].
      * rewrite Hdb, <- app_assoc. done.
      * by rewrite Hdb, <- app_assoc.
Qed.

(** The database load: when the filled records have pairwise distinct ids,
    the table afterwards holds exactly them, in the order of the file,
    whatever it held before. *)
Lemma database_load_replaces_and_fills
  (batch : list Recipe) (w : Database.World) :
  NoDup (Spec.ids (Database.fill_all xid_String clock batch w).1) →
  Database.loadInitialData xid_String clock (Parsed batch) w
  = (None,
     Database.set_db (Database.fill_all xid_String clock batch w).1
       (Database.fill_all xid_String clock batch w).2).
Proof.
  intros Hnodup.
  unfold Database.loadInitialData, Database.db_Exec_DELETE_FROM_recipes.
  rewrite insert_loop_no_clash; rewrite fill_all_set_db;
    cbn [fst snd Database.db Database.set_db app].
  - by destruct (Database.fill_all xid_String clock batch w).2.
  - done.
Qed.

End Load.

(** C7.  The in-memory start-up decodes the file into the slice and assigns
    nothing.  With a file holding [recipeBare] (empty id, zero timestamp)
    and [recipeA], the store afterwards holds the two records as the file
    has them: the first still has the empty id and the zero timestamp, and
    no identifier and no clock reading was taken. *)
Theorem in_memory_init_assigns_no_id_or_timestamp :
  InMemory.init (Parsed [Samples.recipeBare; Samples.recipeA])
    (InMemory.mkWorld [Samples.recipeB] 0 0)
  = InMemory.mkWorld [Samples.recipeBare; Samples.recipeA] 0 0
  ∧ ID Samples.recipeBare = ""
  ∧ IsZero (PublishedAt Samples.recipeBare) = true.
Proof. repeat split; vm_compute; reflexivity. Qed.

(** The database load on the same file fills both fields of the bare
    record. *)
Lemma database_load_sample :
  Database.loadInitialData Samples.xid_sample Samples.clock_sample
    (Parsed [Samples.recipeBare; Samples.recipeA])
    (Database.mkWorld [Samples.recipeB] 0 0)
  = (None,
     Database.mkWorld
       [mkRecipe "x" "Soup" (Some ["hot"]) None None 1000; Samples.recipeA] 1 1).
Proof. vm_compute. reflexivity. Qed.

(** ** Create *)

Lemma xid_sample_unique (m n : nat) :
  Samples.xid_sample m = Samples.xid_sample n → m = n.
Proof.
  unfold Samples.xid_sample. intros H. injection H as H.
  revert n H. induction m as [|m IH]; intros [|n] H; try done.
  injection H as H. f_equal. by apply IH.
Qed.

Lemma xid_sample_nonempty (n : nat) : Samples.xid_sample n ≠ "".
Proof. done. Qed.

Section Generator.

Variable xid_String : nat → string.
Variable clock : nat → Time.

(** The generator never hands out the same identifier twice, and never the
    empty string. *)
Hypothesis xid_unique : ∀ m n : nat, xid_String m = xid_String n → m = n.
Hypothesis xid_nonempty : ∀ n : nat, xid_String n ≠ "".

(** The ids a run creates are identifiers the generator handed out during
    the run, each at a different count. *)
Lemma in_memory_created_ids_counts (reqs : list InMemory.Request) (w : InMemory.World) :
  ∃ ks : list nat,
    InMemory.created_ids (InMemory.run xid_String clock reqs w).1
    = map xid_String ks
    ∧ NoDup ks
    ∧ (∀ k, k ∈ ks → (InMemory.xids w ≤ k)%nat)
    ∧ (InMemory.xids w ≤ InMemory.xids (InMemory.run xid_String clock reqs w).2)%nat.
Proof.
  revert w. induction reqs as [|req reqs IH]; intros w.
  - exists []. cbn. repeat split; [constructor | by intros k Hk%elem_of_nil | lia].
  - cbn [InMemory.run].
    destruct (InMemory.serve xid_String clock req w) as [replies w1] eqn:Hserve.
    destruct (IH w1) as (ks & Hids & Hnodup & Hlow & Hle).
    destruct (InMemory.run xid_String clock reqs w1) as [log w2].
    cbn [fst snd] in *.
    destruct req as [[msg|input]| |id body| |tag]; cbn in Hserve.
    + injection Hserve as <- <-. exists ks. cbn. done.
    + injection Hserve as <- <-. cbn in *.
      exists (InMemory.xids w :: ks). rewrite Hids. repeat split.
      * apply NoDup_cons. split; [|done]. intros Hin. apply Hlow in Hin. lia.
      * intros k [->|Hk]%elem_of_cons; [lia|]. apply Hlow in Hk. lia.
      * lia.
    + injection Hserve as <- <-. exists ks. done.
    + exists ks. unfold InMemory.UpdateRecipeHandler in Hserve.
      destruct body; [|destruct (_ =? _)]; injection Hserve as <- <-; done.
    + exists ks. unfold InMemory.DeleteRecipeHandler in Hserve.
      destruct (_ =? _); injection Hserve as <- <-; done.
    + injection Hserve as <- <-. exists ks. done.
Qed.

Lemma database_created_ids_counts (reqs : list Database.Request) (w : Database.World) :
  ∃ ks : list nat,
    Database.created_ids (Database.run xid_String clock reqs w).1
    = map xid_String ks
    ∧ NoDup ks
    ∧ (∀ k, k ∈ ks → (Database.xids w ≤ k)%nat)
    ∧ (Database.xids w ≤ Database.xids (Database.run xid_String clock reqs w).2)%nat.
Proof.
  revert w. induction reqs as [|req reqs IH]; intros w.
  - exists []. cbn. repeat split; [constructor | by intros k Hk%elem_of_nil | lia].
  - cbn [Database.run].
    destruct (Database.serve xid_String clock req w) as [replies w1] eqn:Hserve.
    destruct (IH w1) as (ks & Hids & Hnodup & Hlow & Hle).
    destruct (Database.run xid_String clock reqs w1) as [log w2].
    cbn [fst snd] in *.
    destruct req as [[msg|input]| |id body| |tag]; cbn in Hserve.
    + injection Hserve as <- <-. exists ks. cbn. done.
    + unfold Database.db_Create in Hserve. cbn in Hserve.
      destruct (Database.has_key _ _); injection Hserve as <- <-; cbn in *.
      * exists ks. repeat split; try done.
        -- intros k Hk. apply Hlow in Hk. lia.
        -- lia.
      * exists (Database.xids w :: ks). rewrite Hids. repeat split.
        -- apply NoDup_cons. split; [|done]. intros Hin. apply Hlow in Hin. lia.
        -- intros k [->|Hk]%elem_of_cons; [lia|]. apply Hlow in Hk. lia.
        -- lia.
    + injection Hserve as <- <-. exists ks. done.
    + exists ks. unfold Database.UpdateRecipeHandler in Hserve.
      destruct body; [|destruct (Database.db_First _ _);
                       [|destruct (Database.db_Updates _ _ _) as [|[? ?]]]];
        injection Hserve as <- <-; done.
    + exists ks. unfold Database.DeleteRecipeHandler in Hserve.
      destruct (Database.db_First _ _); [|destruct (Database.db_Delete _ _)];
        injection Hserve as <- <-; done.
    + exists ks. unfold Database.SearchRecipesHandler in Hserve.
      destruct (String.eqb tag ""); injection Hserve as <- <-; done.
Qed.

(** C6.  For every body that binds, every store and every state of the
    generator and the clock, the create handler builds the record [created]:
    the body with its id replaced by the next identifier of the generator
    and its timestamp by the next reading of the clock, whatever the body
    had there.  The in-memory program appends it to the store and writes it
    back with the 200; the database program does the same unless a row has
    that key already, when the insert is refused and the 500 written with
    the error of the driver, whatever its text.  The id is not empty, and
    over any run of requests from any state the ids of the records the
    create handler answered with are pairwise distinct. *)
Theorem create_assigns_fresh_id_and_current_time
  (input : Recipe) (rs : list Recipe) (xn nn : nat) :
  let created :=
    mkRecipe (xid_String xn) (Name input) (Tags input) (Ingredients input)
      (Instructions input) (clock nn) in
  InMemory.NewRecipeHandler xid_String clock (BindOk input)
    (InMemory.mkWorld rs xn nn)
  = ([(StatusOK, OneRecipe created)],
     InMemory.mkWorld (rs ++ [created]) (S xn) (S nn))
  ∧ Database.NewRecipeHandler xid_String clock (BindOk input)
      (Database.mkWorld rs xn nn)
    = (if Database.has_key (xid_String xn) rs
       then ([(StatusInternalServerError, DriverErrorH ErrUniqueViolation)],
             Database.mkWorld rs (S xn) (S nn))
       else ([(StatusOK, OneRecipe created)],
             Database.mkWorld (rs ++ [created]) (S xn) (S nn)))
  ∧ ID created ≠ ""
  ∧ (∀ reqs w,
       NoDup (InMemory.created_ids (InMemory.run xid_String clock reqs w).1))
  ∧ (∀ reqs w,
       NoDup (Database.created_ids (Database.run xid_String clock reqs w).1)).
Proof.
  cbn zeta. repeat split.
  - unfold Database.NewRecipeHandler, Database.db_Create.
    cbn [Database.xid_New Database.time_Now Database.db Database.xids
         Database.nows set_ID set_PublishedAt ID Name Tags Ingredients
         Instructions PublishedAt].
    by destruct (Database.has_key _ _).
  - apply xid_nonempty.
  - intros reqs w.
    destruct (in_memory_created_ids_counts reqs w) as (ks & -> & Hnodup & _).
    apply NoDup_fmap_2; [|done]. intros m n. apply xid_unique.
  - intros reqs w.
    destruct (database_created_ids_counts reqs w) as (ks & -> & Hnodup & _).
    apply NoDup_fmap_2; [|done]. intros m n. apply xid_unique.
Qed.

End Generator.

Lemma create_assigns_fresh_id_and_current_time_witness :
  (∀ m n : nat, Samples.xid_sample m = Samples.xid_sample n → m = n)
  ∧ (∀ n : nat, Samples.xid_sample n ≠ "")
  ∧ InMemory.NewRecipeHandler Samples.xid_sample Samples.clock_sample
      (BindOk Samples.bodyOther) (InMemory.mkWorld [Samples.recipeA] 3 4)
    = ([(StatusOK, OneRecipe (mkRecipe "xiii" "Stew" None None None 1004))],
       InMemory.mkWorld
         [Samples.recipeA; mkRecipe "xiii" "Stew" None None None 1004] 4 5).
Proof.
  split; [exact xid_sample_unique|]. split; [exact xid_sample_nonempty|].
  exact (proj1 (create_assigns_fresh_id_and_current_time
    Samples.xid_sample Samples.clock_sample
    xid_sample_unique xid_sample_nonempty Samples.bodyOther
    [Samples.recipeA] 3 4)).
Defined.

(** * Further properties of the handlers *)

(** ** Shared steps *)

Lemma in_memory_hit_true (tag : string) (r : Recipe) :
  Spec.in_memory_hit tag r = true
  ↔ ∃ t : string, t ∈ elems (Tags r) ∧ substring_of tag t.
Proof.
  unfold Spec.in_memory_hit. rewrite existsb_exists. split.
  - intros [t [Hin Ht]]. exists t.
    split; [by apply list_elem_of_In | by apply Contains_true].
  - intros [t [Hin Ht]]. exists t.
    split; [by apply list_elem_of_In | by apply Contains_true].
Qed.

(** With pairwise distinct ids, the record with a given id splits the store
    into two parts that do not have the id. *)
Lemma split_at_unique_id (id : string) (rs : list Recipe) :
  id ∈ Spec.ids rs → NoDup (Spec.ids rs) →
  ∃ l1 r l2, rs = l1 ++ r :: l2 ∧ ID r = id
             ∧ (id ∉ Spec.ids l1) ∧ (id ∉ Spec.ids l2).
Proof.
  intros Hin Hnodup.
  destruct (last_with_id id rs Hin) as (l1 & r & l2 & -> & Hr & Hl2).
  exists l1, r, l2. repeat split; try done.
  rewrite ids_app in Hnodup. apply NoDup_app in Hnodup as (_ & Hdisj & _).
  intros Hl1. apply (Hdisj id Hl1). unfold Spec.ids. cbn [map]. rewrite Hr.
  by left.
Qed.

Lemma db_First_middle (id : string) (l1 : list Recipe) (r : Recipe)
  (l2 : list Recipe) :
  id ∉ Spec.ids l1 → ID r = id →
  Database.db_First id (l1 ++ r :: l2) = inr r.
Proof.
  intros Hl1 Hr. unfold Database.db_First.
  induction l1 as [|x l1 IH]; cbn [app find].
  - rewrite Hr, String.eqb_refl. done.
  - unfold Spec.ids in Hl1. cbn [map] in Hl1.
    apply not_elem_of_cons in Hl1 as [Hx Hl1].
    destruct (String.eqb_spec (ID x) id); [congruence|]. by apply IH.
Qed.

Lemma filter_without_id (id : string) (rs : list Recipe) :
  id ∉ Spec.ids rs → filter (λ row, ID row ≠ id) rs = rs.
Proof.
  induction rs as [|x rs IH]; intros Hnot; [done|].
  unfold Spec.ids in Hnot. cbn [map] in Hnot.
  apply not_elem_of_cons in Hnot as [Hx Hnot].
  rewrite filter_cons_True by congruence. f_equal. by apply IH.
Qed.

Lemma filter_out_middle (id : string) (l1 : list Recipe) (r : Recipe)
  (l2 : list Recipe) :
  id ∉ Spec.ids l1 → id ∉ Spec.ids l2 → ID r = id →
  filter (λ row, ID row ≠ id) (l1 ++ r :: l2) = l1 ++ l2.
Proof.
  intros Hl1 Hl2 Hr. rewrite filter_app, filter_cons_False by (intros H; by apply H).
  by rewrite !filter_without_id.
Qed.

Lemma map_where_id_without (id : string) (f : Recipe → Recipe) (rs : list Recipe) :
  id ∉ Spec.ids rs →
  map (λ row, if String.eqb (ID row) id then f row else row) rs = rs.
Proof.
  induction rs as [|x rs IH]; intros Hnot; [done|].
  unfold Spec.ids in Hnot. cbn [map] in Hnot.
  apply not_elem_of_cons in Hnot as [Hx Hnot]. cbn [map].
  destruct (String.eqb_spec (ID x) id); [congruence|]. f_equal. by apply IH.
Qed.

Lemma map_where_id_middle (id : string) (f : Recipe → Recipe)
  (l1 : list Recipe) (r : Recipe) (l2 : list Recipe) :
  id ∉ Spec.ids l1 → id ∉ Spec.ids l2 → ID r = id →
  map (λ row, if String.eqb (ID row) id then f row else row) (l1 ++ r :: l2)
  = l1 ++ f r :: l2.
Proof.
  intros Hl1 Hl2 Hr. rewrite map_app. cbn [map].
  rewrite !map_where_id_without by done.
  by rewrite Hr, String.eqb_refl.
Qed.

(** ** The lookup loop *)

(** X1.  The lookup loop of the in-memory update and delete handlers ends at
    -1 exactly when no record has the id; otherwise it ends at the position
    of the last record that has it: the store splits there into the records
    before, that record, and records none of which has the id. *)
Theorem in_memory_lookup_finds_the_last (id : string) (rs : list Recipe) :
  (InMemory.findIndex id rs = -1 ∧ id ∉ Spec.ids rs)
  ∨ (∃ l1 r l2,
       rs = l1 ++ r :: l2 ∧ ID r = id ∧ (id ∉ Spec.ids l2)
       ∧ InMemory.findIndex id rs = Z.of_nat (length l1)
       ∧ rs !! Z.to_nat (InMemory.findIndex id rs) = Some r).
Proof.
  destruct (decide (id ∈ Spec.ids rs)) as [Hin|Hnot].
  - right. destruct (findIndex_present id rs Hin) as (l1 & r & l2 & Hrs & Hr & Hl2 & Hi).
    exists l1, r, l2. repeat split; try done.
    rewrite Hi, Nat2Z.id, Hrs. by rewrite list_lookup_middle.
  - left. split; [by apply findIndex_absent | done].
Qed.

(** ** Search, for every store *)

Lemma sample_tags_ascii (r : Recipe) (t : string) :
  r ∈ [Samples.recipeA; Samples.recipeB] → t ∈ elems (Tags r) →
  ascii_only t = true.
Proof.
  intros Hr Ht.
  repeat (apply elem_of_cons in Hr as [->|Hr]);
    [| |by apply elem_of_nil in Hr]; cbn in Ht;
    repeat (apply elem_of_cons in Ht as [->|Ht]);
    try reflexivity; by apply elem_of_nil in Ht.
Qed.

Lemma hits_replicate (lowerTag : string) (r : Recipe) :
  Spec.hits lowerTag r = replicate (Spec.matching_tags lowerTag r) r.
Proof.
  unfold Spec.hits, Spec.matching_tags.
  induction (elems (Tags r)) as [|t ts IH]; [done|].
  cbn [flat_map List.filter]. rewrite IH.
  by destruct (Contains (ToLower t) lowerTag).
Qed.

(** X2.  The in-memory search handler writes one 200 and leaves the state as
    it was; the list it writes is the store filtered, so every record is
    there as often and in the order it is in the store, and a record passes
    the filter exactly when one of its tags contains the search tag as it
    is written (no change of case). *)
Theorem in_memory_search_filters_the_store (tag : string) (w : InMemory.World) :
  InMemory.SearchRecipesHandler tag w
  = ([(StatusOK,
       ManyRecipes (List.filter (Spec.in_memory_hit tag) (InMemory.recipes w)))],
     w)
  ∧ ∀ r : Recipe,
      Spec.in_memory_hit tag r = true
      ↔ ∃ t : string, t ∈ elems (Tags r) ∧ substring_of tag t.
Proof.
  split.
  - unfold InMemory.SearchRecipesHandler. by rewrite in_memory_search_loop.
  - intros r. apply in_memory_hit_true.
Qed.

(** X3.  With the empty tag the in-memory search handler writes the 200 with
    exactly the records that have at least one tag, in the order of the
    store: a record without tags is never returned. *)
Theorem in_memory_search_empty_tag (w : InMemory.World) :
  InMemory.SearchRecipesHandler "" w
  = ([(StatusOK, ManyRecipes (List.filter Spec.has_tags (InMemory.recipes w)))],
     w).
Proof.
  unfold InMemory.SearchRecipesHandler. rewrite in_memory_search_loop, app_nil_l.
  do 2 f_equal. f_equal. f_equal. apply List.filter_ext. intros r.
  unfold Spec.in_memory_hit, Spec.has_tags.
  destruct (elems (Tags r)) as [|t ts]; [done|].
  cbn [existsb]. by rewrite Contains_empty.
Qed.

(** X4.  For a search tag that is not empty, with the search tag and the
    tags of the rows in ASCII, the database search handler writes one 200
    and leaves the state as it was; a record is in the list it writes
    exactly when it is a row of the table and one of its tags, lowercased,
    contains the lowercased tag. *)
Theorem database_search_nonempty_tag (tag : string) (w : Database.World) :
  tag ≠ "" →
  ascii_only tag = true →
  (∀ r t, r ∈ Database.db w → t ∈ elems (Tags r) → ascii_only t = true) →
  ∃ l : list Recipe,
    Database.SearchRecipesHandler tag w = ([(StatusOK, ManyRecipes l)], w)
    ∧ ∀ r : Recipe,
        r ∈ l ↔ r ∈ Database.db w ∧ Spec.matches (ToLower tag) r.
Proof.
  intros Hne _ _.
  exists (Database.search_loop (ToLower tag) (Database.db w) []). split.
  - unfold Database.SearchRecipesHandler, Database.db_Find.
    destruct (String.eqb_spec tag ""); [done|]. done.
  - intros r. rewrite database_search_loop, app_nil_l, list_elem_of_In, in_flat_map.
    rewrite <- matchesb_true. split.
    + intros [x [Hx Hr]]. apply list_elem_of_In in Hx, Hr.
      apply elem_of_hits in Hr as [-> Hm]. done.
    + intros [Hr Hm]. exists r. split; [by apply list_elem_of_In|].
      apply list_elem_of_In, elem_of_hits. done.
Qed.

Lemma database_search_nonempty_tag_witness :
  "pasta" ≠ ""
  ∧ ascii_only "pasta" = true
  ∧ (∀ r t, r ∈ [Samples.recipeA; Samples.recipeB] →
            t ∈ elems (Tags r) → ascii_only t = true)
  ∧ ∃ l : list Recipe,
      Database.SearchRecipesHandler "pasta"
        (Database.mkWorld [Samples.recipeA; Samples.recipeB] 2 2)
      = ([(StatusOK, ManyRecipes l)],
         Database.mkWorld [Samples.recipeA; Samples.recipeB] 2 2).
Proof.
  assert (Hne : "pasta" ≠ "") by discriminate.
  assert (Htag : ascii_only "pasta" = true) by reflexivity.
  split; [exact Hne|]. split; [exact Htag|].
  split; [exact sample_tags_ascii|].
  destruct (database_search_nonempty_tag "pasta"
    (Database.mkWorld [Samples.recipeA; Samples.recipeB] 2 2)
    Hne Htag sample_tags_ascii) as (l & Hl & _).
  by exists l.
Defined.

(** X5.  With the empty tag the database search handler makes two [c.JSON]
    calls, for every table: the 400 "Tag is required", then the 200 with
    every row of the table repeated once for each tag it has (a row without
    tags is left out); the state is as it was. *)
Theorem database_search_empty_tag_lists_rows_per_tag (w : Database.World) :
  Database.SearchRecipesHandler "" w
  = ([(StatusBadRequest, ErrorH "Tag is required");
      (StatusOK,
       ManyRecipes
         (flat_map (λ r, replicate (length (elems (Tags r))) r)
                   (Database.db w)))],
     w).
Proof.
  unfold Database.SearchRecipesHandler, Database.db_Find.
  cbn [String.eqb ToLower app]. rewrite database_search_loop, app_nil_l.
  do 2 f_equal. f_equal. f_equal. f_equal. apply flat_map_ext. intros r.
  rewrite hits_replicate. f_equal. unfold Spec.matching_tags.
  induction (elems (Tags r)) as [|t ts IH]; [done|].
  cbn [List.filter]. rewrite Contains_empty. cbn [length]. by rewrite IH.
Qed.

(** X6.  For every search tag and table, both in ASCII, the last [c.JSON]
    call of the database search handler is the 200 with the rows in the
    order of the table, each repeated as many times as it has tags that,
    lowercased, contain the lowercased search tag; before it comes the 400
    when the tag is empty and nothing otherwise. *)
Theorem database_search_repeats_rows_by_matching_tags
  (tag : string) (w : Database.World) :
  ascii_only tag = true →
  (∀ r t, r ∈ Database.db w → t ∈ elems (Tags r) → ascii_only t = true) →
  Database.SearchRecipesHandler tag w
  = ((if String.eqb tag "" then [(StatusBadRequest, ErrorH "Tag is required")]
      else [])
     ++ [(StatusOK,
          ManyRecipes
            (flat_map (λ r, replicate (Spec.matching_tags (ToLower tag) r) r)
                      (Database.db w)))],
     w).
Proof.
  intros _ _. unfold Database.SearchRecipesHandler, Database.db_Find.
  rewrite database_search_loop, app_nil_l.
  do 2 f_equal. f_equal. f_equal. f_equal. apply flat_map_ext. intros r.
  apply hits_replicate.
Qed.

Lemma database_search_repeats_rows_by_matching_tags_witness :
  ascii_only "a" = true
  ∧ (∀ r t, r ∈ [Samples.recipeA; Samples.recipeB] →
            t ∈ elems (Tags r) → ascii_only t = true)
  ∧ Database.SearchRecipesHandler "a"
      (Database.mkWorld [Samples.recipeA; Samples.recipeB] 2 2)
    = ([(StatusOK, ManyRecipes [Samples.recipeA; Samples.recipeA])],
       Database.mkWorld [Samples.recipeA; Samples.recipeB] 2 2).
Proof.
  assert (Htag : ascii_only "a" = true) by reflexivity.
  split; [exact Htag|]. split; [exact sample_tags_ascii|].
  exact (database_search_repeats_rows_by_matching_tags "a"
    (Database.mkWorld [Samples.recipeA; Samples.recipeB] 2 2)
    Htag sample_tags_ascii).
Defined.

(** X7.  On a store whose tags are all in ASCII and in lower case already,
    searched with a tag in ASCII and in lower case, the two search handlers
    return the same records: a record is in the in-memory result exactly
    when it is in the database result. *)
Theorem search_handlers_agree_on_lowercase (tag : string) (rs : list Recipe) :
  ascii_only tag = true →
  (∀ r t, r ∈ rs → t ∈ elems (Tags r) → ascii_only t = true) →
  ToLower tag = tag →
  (∀ r t, r ∈ rs → t ∈ elems (Tags r) → ToLower t = t) →
  ∀ r : Recipe,
    r ∈ InMemory.search_loop tag rs []
    ↔ r ∈ Database.search_loop (ToLower tag) rs [].
Proof.
  intros _ _ Htag Htags r. rewrite Htag.
  rewrite in_memory_search_loop, database_search_loop, !app_nil_l.
  rewrite !list_elem_of_In, filter_In, in_flat_map. split.
  - intros [Hr Hhit]. exists r. split; [done|].
    apply list_elem_of_In, elem_of_hits. split; [done|].
    apply list_elem_of_In in Hr.
    unfold Spec.in_memory_hit in Hhit. unfold Spec.matchesb.
    apply existsb_exists in Hhit as [t [Ht Hc]]. apply existsb_exists.
    exists t. split; [done|]. apply list_elem_of_In in Ht.
    by rewrite (Htags r t Hr Ht).
  - intros [x [Hx Hr]]. apply list_elem_of_In, elem_of_hits in Hr as [-> Hm].
    split; [done|]. apply list_elem_of_In in Hx.
    unfold Spec.in_memory_hit. unfold Spec.matchesb in Hm.
    apply existsb_exists in Hm as [t [Ht Hc]]. apply existsb_exists.
    exists t. split; [done|]. apply list_elem_of_In in Ht.
    by rewrite (Htags x t Hx Ht) in Hc.
Qed.

Lemma search_handlers_agree_on_lowercase_witness :
  ascii_only "pasta" = true
  ∧ (∀ r t, r ∈ [Samples.recipeA; Samples.recipeB] →
            t ∈ elems (Tags r) → ascii_only t = true)
  ∧ ToLower "pasta" = "pasta"
  ∧ (∀ r t, r ∈ [Samples.recipeA; Samples.recipeB] →
            t ∈ elems (Tags r) → ToLower t = t)
  ∧ (Samples.recipeA ∈ InMemory.search_loop "pasta"
                         [Samples.recipeA; Samples.recipeB] []
     ↔ Samples.recipeA ∈ Database.search_loop (ToLower "pasta")
                           [Samples.recipeA; Samples.recipeB] []).
Proof.
  assert (Htag : ToLower "pasta" = "pasta") by reflexivity.
  assert (Htags : ∀ r t, r ∈ [Samples.recipeA; Samples.recipeB] →
                         t ∈ elems (Tags r) → ToLower t = t).
  { intros r t Hr Ht.
    repeat (apply elem_of_cons in Hr as [->|Hr]);
      [| |by apply elem_of_nil in Hr]; cbn in Ht;
      repeat (apply elem_of_cons in Ht as [->|Ht]);
      try reflexivity; by apply elem_of_nil in Ht. }
  assert (Hascii : ascii_only "pasta" = true) by reflexivity.
  split; [exact Hascii|]. split; [exact sample_tags_ascii|].
  split; [exact Htag|]. split; [exact Htags|].
  exact (search_handlers_agree_on_lowercase "pasta"
    [Samples.recipeA; Samples.recipeB] Hascii sample_tags_ascii Htag Htags
    Samples.recipeA).
Defined.

(** ** Create, then use the id *)

(** X8.  In the in-memory program the record a create answers with is the
    one a following update or delete with its id acts on, whatever the store
    held before (even a record with the same id): the lookup ends at the
    last position, the update puts its body there, and the delete gives
    back the store as it was before the create. *)
Theorem in_memory_create_then_update_or_delete
  (xid_String : nat → string) (clock : nat → Time)
  (input body : Recipe) (rs : list Recipe) (xn nn : nat) :
  ∃ (created : Recipe) (w1 : InMemory.World),
    InMemory.NewRecipeHandler xid_String clock (BindOk input)
      (InMemory.mkWorld rs xn nn)
    = ([(StatusOK, OneRecipe created)], w1)
    ∧ InMemory.findIndex (ID created) (InMemory.recipes w1)
      = Z.of_nat (length rs)
    ∧ InMemory.UpdateRecipeHandler (ID created) (BindOk body) w1
      = ([(StatusOK, OneRecipe body)],
         InMemory.mkWorld (rs ++ [body]) (S xn) (S nn))
    ∧ InMemory.DeleteRecipeHandler (ID created) w1
      = ([(StatusOK, MessageH "Recipe has been deleted")],
         InMemory.mkWorld rs (S xn) (S nn)).
Proof.
  pose (created := set_PublishedAt (clock nn) (set_ID (xid_String xn) input)).
  pose (w1 := InMemory.mkWorld (rs ++ [created]) (S xn) (S nn)).
  assert (Hnil : xid_String xn ∉ Spec.ids []) by apply not_elem_of_nil.
  exists created, w1. split; [reflexivity|].
  change (ID created) with (xid_String xn).
  change (InMemory.recipes w1) with (rs ++ [created]).
  repeat split.
  - unfold InMemory.findIndex. by rewrite findIndex_from_last.
  - exact (in_memory_update_found (xid_String xn) body w1 rs created []
             eq_refl eq_refl Hnil).
  - rewrite (in_memory_delete_found (xid_String xn) w1 rs created []
               eq_refl eq_refl Hnil).
    unfold InMemory.set_recipes. by rewrite app_nil_r.
Qed.

(** X9.  In the database program, when the insert of a create is accepted
    (no row has the generated key, which is not empty), the lookup of the
    returned id gives the created record, and a delete of that id gives back
    the table as it was before the create. *)
Theorem database_create_then_lookup_and_delete
  (xid_String : nat → string) (clock : nat → Time)
  (input : Recipe) (rs : list Recipe) (xn nn : nat) :
  Database.has_key (xid_String xn) rs = false →
  xid_String xn ≠ "" →
  ∃ (created : Recipe) (w1 : Database.World),
    Database.NewRecipeHandler xid_String clock (BindOk input)
      (Database.mkWorld rs xn nn)
    = ([(StatusOK, OneRecipe created)], w1)
    ∧ Database.db w1 = rs ++ [created]
    ∧ Database.db_First (ID created) (Database.db w1) = inr created
    ∧ Database.DeleteRecipeHandler (ID created) w1
      = ([(StatusOK, MessageH "Recipe has been deleted")],
         Database.mkWorld rs (S xn) (S nn)).
Proof.
  intros Hkey Hne.
  assert (Hnot : xid_String xn ∉ Spec.ids rs).
  { intros Hin. apply has_key_true in Hin. congruence. }
  pose (created := set_PublishedAt (clock nn) (set_ID (xid_String xn) input)).
  pose (w1 := Database.mkWorld (rs ++ [created]) (S xn) (S nn)).
  assert (Hfirst : Database.db_First (xid_String xn) (rs ++ [created])
                   = inr created) by by apply db_First_middle.
  exists created, w1. split.
  { unfold Database.NewRecipeHandler, Database.db_Create.
    cbn [Database.xid_New Database.time_Now Database.db Database.xids
         Database.nows set_ID set_PublishedAt ID].
    rewrite Hkey. reflexivity. }
  change (ID created) with (xid_String xn).
  change (Database.db w1) with (rs ++ [created]).
  repeat split; [exact Hfirst|].
  unfold Database.DeleteRecipeHandler, Database.db_Delete.
  change (Database.db w1) with (rs ++ [created]). rewrite Hfirst.
  change (ID created) with (xid_String xn).
  destruct (String.eqb_spec (xid_String xn) ""); [done|].
  rewrite filter_out_middle;
    [by rewrite app_nil_r | done | apply not_elem_of_nil | done].
Qed.

Lemma database_create_then_lookup_and_delete_witness :
  Database.has_key (Samples.xid_sample 3) [Samples.recipeA] = false
  ∧ Samples.xid_sample 3 ≠ ""
  ∧ ∃ (created : Recipe) (w1 : Database.World),
      Database.NewRecipeHandler Samples.xid_sample Samples.clock_sample
        (BindOk Samples.bodyOther) (Database.mkWorld [Samples.recipeA] 3 4)
      = ([(StatusOK, OneRecipe created)], w1)
      ∧ Database.DeleteRecipeHandler (ID created) w1
        = ([(StatusOK, MessageH "Recipe has been deleted")],
           Database.mkWorld [Samples.recipeA] 4 5).
Proof.
  assert (Hkey : Database.has_key (Samples.xid_sample 3) [Samples.recipeA] = false)
    by reflexivity.
  assert (Hne : Samples.xid_sample 3 ≠ "") by discriminate.
  split; [exact Hkey|]. split; [exact Hne|].
  destruct (database_create_then_lookup_and_delete Samples.xid_sample
    Samples.clock_sample Samples.bodyOther [Samples.recipeA] 3 4 Hkey Hne)
    as (created & w1 & Hnew & _ & _ & Hdel).
  exists created, w1. auto.
Defined.

(** ** Update, field by field *)

(** The database update handler changes no id, whatever the request. *)
Lemma database_update_ids (id : string) (body : Bind) (w : Database.World) :
  Spec.ids (Database.db (Database.UpdateRecipeHandler id body w).2)
  = Spec.ids (Database.db w).
Proof.
  unfold Database.UpdateRecipeHandler.
  destruct body as [msg|recipe]; [done|].
  destruct (Database.db_First id (Database.db w)) as [e|ex]; [done|].
  unfold Database.db_Updates.
  destruct (String.eqb_spec (ID ex) "") as [|Hne]; [done|].
  cbn [snd Database.db Database.set_db]. unfold Spec.ids. rewrite map_map.
  apply map_ext. intros row.
  destruct (String.eqb_spec (ID row) (ID ex)) as [Heq|]; [|done].
  unfold Database.assign_non_zero, set_PublishedAt, set_ID. cbn [ID].
  destruct (String.eqb_spec (ID ex) ""); [done|]. done.
Qed.

(** The update of a row found under a key that no other row has. *)
Lemma database_update_found (id : string) (body : Recipe)
  (l1 : list Recipe) (existing : Recipe) (l2 : list Recipe) (xn nn : nat) :
  id ∉ Spec.ids l1 → id ∉ Spec.ids l2 → ID existing = id → id ≠ "" →
  Database.UpdateRecipeHandler id (BindOk body)
    (Database.mkWorld (l1 ++ existing :: l2) xn nn)
  = ([(StatusOK,
       OneRecipe
         (mkRecipe id
            (if String.eqb (Name body) "" then Name existing else Name body)
            (match Tags body with None => Tags existing | Some _ => Tags body end)
            (match Ingredients body with
             | None => Ingredients existing
             | Some _ => Ingredients body
             end)
            (match Instructions body with
             | None => Instructions existing
             | Some _ => Instructions body
             end)
            (PublishedAt existing)))],
     Database.mkWorld
       (l1 ++ mkRecipe id
                (if String.eqb (Name body) "" then Name existing else Name body)
                (match Tags body with None => Tags existing | Some _ => Tags body end)
                (match Ingredients body with
                 | None => Ingredients existing
                 | Some _ => Ingredients body
                 end)
                (match Instructions body with
                 | None => Instructions existing
                 | Some _ => Instructions body
                 end)
                (PublishedAt existing) :: l2) xn nn).
Proof.
  intros Hl1 Hl2 Hex Hne.
  unfold Database.UpdateRecipeHandler, Database.db_Updates. cbn [Database.db].
  rewrite (db_First_middle id l1 existing l2 Hl1 Hex). rewrite Hex.
  destruct (String.eqb_spec id ""); [done|].
  rewrite (map_where_id_middle id _ l1 existing l2 Hl1 Hl2 Hex).
  unfold Database.assign_non_zero, set_PublishedAt, set_ID, Database.set_db.
  cbn [ID Name Tags Ingredients Instructions PublishedAt Database.xids Database.nows].
  rewrite Hex. destruct (String.eqb_spec id ""); [done|].
  by destruct (IsZero (PublishedAt existing)).
Qed.

(** X10.  The database update handler never changes the id of any row:
    for every id in the path, every request body (one that fails to bind
    too) and every table, the ids of the rows afterwards are the ids before,
    in the same order. *)
Theorem database_update_never_changes_ids
  (id : string) (body : Bind) (w : Database.World) :
  Spec.ids (Database.db (Database.UpdateRecipeHandler id body w).2)
  = Spec.ids (Database.db w)
  ∧ length (Database.db (Database.UpdateRecipeHandler id body w).2)
    = length (Database.db w).
Proof.
  pose proof (database_update_ids id body w) as Hids. split; [done|].
  apply (f_equal length) in Hids. unfold Spec.ids in Hids.
  by rewrite !length_map in Hids.
Qed.

(** X11.  On a table with pairwise distinct ids, the database update of an
    id that a row has (the id is not empty) writes the 200 with the merged
    record and puts it in the place of the row, all other rows staying as
    they are: the merged record has the row's id and timestamp, the body's
    name unless that is empty, and the body's tags, ingredients and
    instructions unless the slice is nil; where the body has the zero value
    the row's value stays. *)
Theorem database_update_merges_non_zero_fields
  (rs : list Recipe) (id : string) (body : Recipe) (xn nn : nat) :
  id ∈ Spec.ids rs → NoDup (Spec.ids rs) → id ≠ "" →
  ∃ l1 existing l2,
    rs = l1 ++ existing :: l2 ∧ ID existing = id ∧
    let merged :=
      mkRecipe id
        (if String.eqb (Name body) "" then Name existing else Name body)
        (match Tags body with None => Tags existing | Some _ => Tags body end)
        (match Ingredients body with
         | None => Ingredients existing
         | Some _ => Ingredients body
         end)
        (match Instructions body with
         | None => Instructions existing
         | Some _ => Instructions body
         end)
        (PublishedAt existing) in
    Database.UpdateRecipeHandler id (BindOk body) (Database.mkWorld rs xn nn)
    = ([(StatusOK, OneRecipe merged)],
       Database.mkWorld (l1 ++ merged :: l2) xn nn).
Proof.
  intros Hin Hnodup Hne.
  destruct (split_at_unique_id id rs Hin Hnodup) as (l1 & ex & l2 & -> & Hex & Hl1 & Hl2).
  exists l1, ex, l2. repeat split; [done|].
  by apply database_update_found.
Qed.

Lemma database_update_merges_non_zero_fields_witness :
  ("a" ∈ Spec.ids [Samples.recipeA; Samples.recipeB])
  ∧ NoDup (Spec.ids [Samples.recipeA; Samples.recipeB])
  ∧ "a" ≠ ""
  ∧ ∃ l1 existing l2,
      [Samples.recipeA; Samples.recipeB] = l1 ++ existing :: l2
      ∧ ID existing = "a".
Proof.
  assert (Hin : "a" ∈ Spec.ids [Samples.recipeA; Samples.recipeB]).
  { apply (bool_decide_unpack _). vm_compute. exact I. }
  assert (Hnodup : NoDup (Spec.ids [Samples.recipeA; Samples.recipeB])).
  { apply (bool_decide_unpack _). vm_compute. exact I. }
  assert (Hne : "a" ≠ "") by discriminate.
  repeat split; try assumption.
  destruct (database_update_merges_non_zero_fields
    [Samples.recipeA; Samples.recipeB] "a" Samples.bodyOther 2 2 Hin Hnodup Hne)
    as (l1 & ex & l2 & Hrs & Hex & _).
  exists l1, ex, l2. auto.
Defined.

(** X12.  On a table with pairwise distinct ids, a database update whose
    body has only zero values in the four content fields (an empty JSON
    object, say) changes nothing: the 200 carries the row as stored and the
    table is the same, whatever id and timestamp the body gives. *)
Theorem database_update_with_empty_body_changes_nothing
  (rs : list Recipe) (id : string) (body : Recipe) (xn nn : nat) :
  id ∈ Spec.ids rs → NoDup (Spec.ids rs) → id ≠ "" →
  Name body = "" → Tags body = None → Ingredients body = None →
  Instructions body = None →
  ∃ existing,
    Database.db_First id rs = inr existing ∧
    Database.UpdateRecipeHandler id (BindOk body) (Database.mkWorld rs xn nn)
    = ([(StatusOK, OneRecipe existing)], Database.mkWorld rs xn nn).
Proof.
  intros Hin Hnodup Hne Hname Htags Hingr Hinst.
  destruct (split_at_unique_id id rs Hin Hnodup) as (l1 & ex & l2 & -> & Hex & Hl1 & Hl2).
  exists ex. split; [by apply db_First_middle|].
  rewrite (database_update_found id body l1 ex l2 xn nn Hl1 Hl2 Hex Hne).
  rewrite Hname, Htags, Hingr, Hinst. cbn [String.eqb].
  destruct ex as [i n t g s p]. cbn in *. by subst.
Qed.

Lemma database_update_with_empty_body_changes_nothing_witness :
  ("a" ∈ Spec.ids [Samples.recipeA; Samples.recipeB])
  ∧ NoDup (Spec.ids [Samples.recipeA; Samples.recipeB])
  ∧ "a" ≠ ""
  ∧ Database.UpdateRecipeHandler "a"
      (BindOk (mkRecipe "other" "" None None None 9))
      (Database.mkWorld [Samples.recipeA; Samples.recipeB] 2 2)
    = ([(StatusOK, OneRecipe Samples.recipeA)],
       Database.mkWorld [Samples.recipeA; Samples.recipeB] 2 2).
Proof.
  assert (Hin : "a" ∈ Spec.ids [Samples.recipeA; Samples.recipeB]).
  { apply (bool_decide_unpack _). vm_compute. exact I. }
  assert (Hnodup : NoDup (Spec.ids [Samples.recipeA; Samples.recipeB])).
  { apply (bool_decide_unpack _). vm_compute. exact I. }
  assert (Hne : "a" ≠ "") by discriminate.
  split; [exact Hin|]. split; [exact Hnodup|]. split; [exact Hne|].
  destruct (database_update_with_empty_body_changes_nothing
    [Samples.recipeA; Samples.recipeB] "a"
    (mkRecipe "other" "" None None None 9) 2 2 Hin Hnodup Hne
    eq_refl eq_refl eq_refl eq_refl) as (ex & Hfirst & Hupd).
  vm_compute in Hfirst. injection Hfirst as <-. exact Hupd.
Defined.

(** ** Update and delete in memory, beyond one step *)

(** X13.  In the in-memory program an update whose body carries the id of
    the path keeps the ids of the store as they are and is idempotent: the
    same request served again writes the same 200 and leaves the same
    state. *)
Theorem in_memory_update_with_same_id_is_idempotent
  (w : InMemory.World) (id : string) (body : Recipe) :
  id ∈ Spec.ids (InMemory.recipes w) → ID body = id →
  Spec.ids (InMemory.recipes
              (InMemory.UpdateRecipeHandler id (BindOk body) w).2)
  = Spec.ids (InMemory.recipes w)
  ∧ InMemory.UpdateRecipeHandler id (BindOk body)
      (InMemory.UpdateRecipeHandler id (BindOk body) w).2
    = ([(StatusOK, OneRecipe body)],
       (InMemory.UpdateRecipeHandler id (BindOk body) w).2).
Proof.
  intros Hin Hbody.
  destruct (findIndex_present id _ Hin) as (l1 & r & l2 & Hw & Hr & Hl2 & _).
  rewrite (in_memory_update_found id body w l1 r l2 Hw Hr Hl2).
  cbn [snd InMemory.set_recipes InMemory.recipes]. split.
  - rewrite Hw, !ids_app. unfold Spec.ids. cbn [map]. by rewrite Hbody, Hr.
  - exact (in_memory_update_found id body
             (InMemory.set_recipes (l1 ++ body :: l2) w) l1 body l2
             eq_refl Hbody Hl2).
Qed.

Lemma in_memory_update_with_same_id_is_idempotent_witness :
  ("a" ∈ Spec.ids [Samples.recipeA; Samples.recipeB])
  ∧ ID (set_ID "a" Samples.bodyOther) = "a"
  ∧ Spec.ids (InMemory.recipes
       (InMemory.UpdateRecipeHandler "a" (BindOk (set_ID "a" Samples.bodyOther))
          (InMemory.mkWorld [Samples.recipeA; Samples.recipeB] 2 2)).2)
    = Spec.ids [Samples.recipeA; Samples.recipeB].
Proof.
  assert (Hin : "a" ∈ Spec.ids [Samples.recipeA; Samples.recipeB]).
  { apply (bool_decide_unpack _). vm_compute. exact I. }
  split; [exact Hin|]. split; [reflexivity|].
  exact (proj1 (in_memory_update_with_same_id_is_idempotent
    (InMemory.mkWorld [Samples.recipeA; Samples.recipeB] 2 2) "a"
    (set_ID "a" Samples.bodyOther) Hin eq_refl)).
Defined.

(** X14.  In the in-memory program, on a store with pairwise distinct ids,
    an update whose body carries an id other than the one of the path takes
    the record out of reach of that id: afterwards no record has the id,
    and an update or a delete of it is answered with the 404. *)
Theorem in_memory_update_with_other_id_loses_the_id
  (rs : list Recipe) (id : string) (body other : Recipe) (xn nn : nat) :
  id ∈ Spec.ids rs → NoDup (Spec.ids rs) → ID body ≠ id →
  ∃ rs',
    InMemory.UpdateRecipeHandler id (BindOk body) (InMemory.mkWorld rs xn nn)
    = ([(StatusOK, OneRecipe body)], InMemory.mkWorld rs' xn nn)
    ∧ (id ∉ Spec.ids rs')
    ∧ InMemory.UpdateRecipeHandler id (BindOk other) (InMemory.mkWorld rs' xn nn)
      = ([(StatusNotFound, ErrorH "Recipe not found")],
         InMemory.mkWorld rs' xn nn)
    ∧ InMemory.DeleteRecipeHandler id (InMemory.mkWorld rs' xn nn)
      = ([(StatusNotFound, ErrorH "Recipe not found")],
         InMemory.mkWorld rs' xn nn).
Proof.
  intros Hin Hnodup Hbody.
  destruct (split_at_unique_id id rs Hin Hnodup) as (l1 & r & l2 & -> & Hr & Hl1 & Hl2).
  assert (Hgone : id ∉ Spec.ids (l1 ++ body :: l2)).
  { rewrite ids_app. unfold Spec.ids at 2. cbn [map].
    rewrite not_elem_of_app, not_elem_of_cons. auto. }
  exists (l1 ++ body :: l2). repeat split.
  - exact (in_memory_update_found id body
             (InMemory.mkWorld (l1 ++ r :: l2) xn nn) l1 r l2 eq_refl Hr Hl2).
  - done.
  - by apply in_memory_update_absent.
  - by apply in_memory_delete_absent.
Qed.

Lemma in_memory_update_with_other_id_loses_the_id_witness :
  ("a" ∈ Spec.ids [Samples.recipeA; Samples.recipeB])
  ∧ NoDup (Spec.ids [Samples.recipeA; Samples.recipeB])
  ∧ ID Samples.bodyOther ≠ "a"
  ∧ ∃ rs',
      InMemory.UpdateRecipeHandler "a" (BindOk Samples.bodyOther)
        (InMemory.mkWorld [Samples.recipeA; Samples.recipeB] 2 2)
      = ([(StatusOK, OneRecipe Samples.bodyOther)], InMemory.mkWorld rs' 2 2)
      ∧ ("a" ∉ Spec.ids rs').
Proof.
  assert (Hin : "a" ∈ Spec.ids [Samples.recipeA; Samples.recipeB]).
  { apply (bool_decide_unpack _). vm_compute. exact I. }
  assert (Hnodup : NoDup (Spec.ids [Samples.recipeA; Samples.recipeB])).
  { apply (bool_decide_unpack _). vm_compute. exact I. }
  assert (Hne : ID Samples.bodyOther ≠ "a") by discriminate.
  split; [exact Hin|]. split; [exact Hnodup|]. split; [exact Hne|].
  destruct (in_memory_update_with_other_id_loses_the_id
    [Samples.recipeA; Samples.recipeB] "a" Samples.bodyOther Samples.recipeB
    2 2 Hin Hnodup Hne) as (rs' & Hupd & Hgone & _).
  exists rs'. auto.
Defined.

(** X15.  The in-memory delete removes one record with the id, the last:
    the number of records with the id goes down by one and the number with
    any other id stays.  So after a delete the lookup of the id finds
    nothing exactly when one record had it before. *)
Theorem in_memory_delete_removes_one_record
  (rs : list Recipe) (id : string) (xn nn : nat) :
  id ∈ Spec.ids rs →
  ∃ rs',
    InMemory.DeleteRecipeHandler id (InMemory.mkWorld rs xn nn)
    = ([(StatusOK, MessageH "Recipe has been deleted")],
       InMemory.mkWorld rs' xn nn)
    ∧ count_occ String.string_dec (Spec.ids rs) id
      = S (count_occ String.string_dec (Spec.ids rs') id)
    ∧ (∀ id', id' ≠ id →
         count_occ String.string_dec (Spec.ids rs') id'
         = count_occ String.string_dec (Spec.ids rs) id')
    ∧ (InMemory.findIndex id rs' = -1
       ↔ count_occ String.string_dec (Spec.ids rs) id = 1%nat).
Proof.
  intros Hin.
  destruct (findIndex_present id rs Hin) as (l1 & r & l2 & -> & Hr & Hl2 & _).
  exists (l1 ++ l2).
  assert (Hcount2 : count_occ String.string_dec (Spec.ids l2) id = 0%nat).
  { apply count_occ_not_In. by rewrite <- list_elem_of_In. }
  assert (Hbefore : count_occ String.string_dec (Spec.ids (l1 ++ r :: l2)) id
                    = S (count_occ String.string_dec (Spec.ids l1) id)).
  { rewrite ids_app, count_occ_app. unfold Spec.ids at 2. cbn [map].
    rewrite count_occ_cons_eq by done. fold (Spec.ids l2). lia. }
  assert (Hafter : count_occ String.string_dec (Spec.ids (l1 ++ l2)) id
                   = count_occ String.string_dec (Spec.ids l1) id).
  { rewrite ids_app, count_occ_app. lia. }
  repeat split.
  - exact (in_memory_delete_found id
             (InMemory.mkWorld (l1 ++ r :: l2) xn nn) l1 r l2 eq_refl Hr Hl2).
  - by rewrite Hbefore, Hafter.
  - intros id' Hne. rewrite !ids_app, !count_occ_app.
    unfold Spec.ids at 4. cbn [map]. rewrite count_occ_cons_neq by congruence.
    done.
  - intros Hidx. rewrite Hbefore. f_equal. rewrite <- Hafter.
    apply count_occ_not_In. rewrite <- list_elem_of_In. intros Hstill.
    destruct (findIndex_present id _ Hstill) as (m1 & _ & _ & _ & _ & _ & Hi).
    rewrite Hi in Hidx. lia.
  - intros Hone. apply findIndex_absent. rewrite list_elem_of_In.
    apply (count_occ_not_In String.string_dec). rewrite Hafter.
    rewrite Hbefore in Hone. lia.
Qed.

Lemma in_memory_delete_removes_one_record_witness :
  ("a" ∈ Spec.ids [Samples.recipeA; set_ID "a" Samples.recipeB])
  ∧ ∃ rs',
      InMemory.DeleteRecipeHandler "a"
        (InMemory.mkWorld [Samples.recipeA; set_ID "a" Samples.recipeB] 2 2)
      = ([(StatusOK, MessageH "Recipe has been deleted")],
         InMemory.mkWorld rs' 2 2)
      ∧ count_occ String.string_dec
          (Spec.ids [Samples.recipeA; set_ID "a" Samples.recipeB]) "a"
        = S (count_occ String.string_dec (Spec.ids rs') "a").
Proof.
  assert (Hin : "a" ∈ Spec.ids [Samples.recipeA; set_ID "a" Samples.recipeB]).
  { apply (bool_decide_unpack _). vm_compute. exact I. }
  split; [exact Hin|].
  destruct (in_memory_delete_removes_one_record
    [Samples.recipeA; set_ID "a" Samples.recipeB] "a" 2 2 Hin)
    as (rs' & Hdel & Hcount & _).
  exists rs'. auto.
Defined.

(** X16.  On a store with pairwise distinct ids and for an id that is not
    empty, the in-memory and the database delete handlers do the same: they
    write the same reply (the 200 with the message, or the 404) and leave
    the same records in the same order. *)
Theorem delete_handlers_agree_on_distinct_ids
  (rs : list Recipe) (id : string) (xn nn : nat) :
  NoDup (Spec.ids rs) → id ≠ "" →
  (InMemory.DeleteRecipeHandler id (InMemory.mkWorld rs xn nn)).1
  = (Database.DeleteRecipeHandler id (Database.mkWorld rs xn nn)).1
  ∧ InMemory.recipes (InMemory.DeleteRecipeHandler id (InMemory.mkWorld rs xn nn)).2
    = Database.db (Database.DeleteRecipeHandler id (Database.mkWorld rs xn nn)).2.
Proof.
  intros Hnodup Hne.
  destruct (decide (id ∈ Spec.ids rs)) as [Hin|Hnot].
  - destruct (split_at_unique_id id rs Hin Hnodup) as (l1 & r & l2 & -> & Hr & Hl1 & Hl2).
    rewrite (in_memory_delete_found id
               (InMemory.mkWorld (l1 ++ r :: l2) xn nn) l1 r l2 eq_refl Hr Hl2).
    unfold Database.DeleteRecipeHandler, Database.db_Delete. cbn [Database.db].
    rewrite (db_First_middle id l1 r l2 Hl1 Hr), Hr.
    destruct (String.eqb_spec id ""); [done|].
    cbn [fst snd InMemory.set_recipes InMemory.recipes Database.set_db Database.db].
    by rewrite filter_out_middle.
  - rewrite (in_memory_delete_absent id (InMemory.mkWorld rs xn nn)) by done.
    unfold Database.DeleteRecipeHandler. cbn [Database.db].
    by rewrite db_First_absent.
Qed.

Lemma delete_handlers_agree_on_distinct_ids_witness :
  NoDup (Spec.ids [Samples.recipeA; Samples.recipeB])
  ∧ "a" ≠ ""
  ∧ InMemory.recipes
      (InMemory.DeleteRecipeHandler "a"
         (InMemory.mkWorld [Samples.recipeA; Samples.recipeB] 2 2)).2
    = Database.db
        (Database.DeleteRecipeHandler "a"
           (Database.mkWorld [Samples.recipeA; Samples.recipeB] 2 2)).2.
Proof.
  assert (Hnodup : NoDup (Spec.ids [Samples.recipeA; Samples.recipeB])).
  { apply (bool_decide_unpack _). vm_compute. exact I. }
  assert (Hne : "a" ≠ "") by discriminate.
  split; [exact Hnodup|]. split; [exact Hne|].
  exact (proj2 (delete_handlers_agree_on_distinct_ids
    [Samples.recipeA; Samples.recipeB] "a" 2 2 Hnodup Hne)).
Defined.

(** ** The keys of the table *)

Section Keys.

Variable xid_String : nat → string.
Variable clock : nat → Time.
Hypothesis xid_nonempty : ∀ n : nat, xid_String n ≠ "".

Lemma database_serve_keeps_keys (req : Database.Request) (w : Database.World) :
  NoDup (Spec.ids (Database.db w)) → "" ∉ Spec.ids (Database.db w) →
  NoDup (Spec.ids (Database.db (Database.serve xid_String clock req w).2))
  ∧ "" ∉ Spec.ids (Database.db (Database.serve xid_String clock req w).2).
Proof.
  intros Hnodup Hne.
  destruct req as [[msg|input]| |id body| |tag]; cbn [Database.serve].
  - done.
  - unfold Database.NewRecipeHandler, Database.db_Create.
    cbn [Database.xid_New Database.time_Now Database.db Database.xids
         Database.nows set_ID set_PublishedAt ID].
    destruct (Database.has_key _ _) eqn:Hkey; cbn [snd Database.db Database.set_db].
    + done.
    + assert (Hfresh : xid_String (Database.xids w) ∉ Spec.ids (Database.db w)).
      { intros Hin. apply has_key_true in Hin. congruence. }
      rewrite ids_app. unfold Spec.ids at 2 4. cbn [map ID]. split.
      * apply NoDup_app. repeat split; [done| |apply NoDup_singleton].
        intros x Hx Hx'. apply list_elem_of_singleton in Hx' as ->. done.
      * rewrite not_elem_of_app, not_elem_of_cons.
        repeat split; [done| |apply not_elem_of_nil].
        intros Heq. by apply (xid_nonempty (Database.xids w)).
  - done.
  - by rewrite database_update_ids.
  - unfold Database.DeleteRecipeHandler.
    destruct (Database.db_First id (Database.db w)) as [e|r]; [done|].
    unfold Database.db_Delete.
    destruct (String.eqb (ID r) ""); [done|].
    cbn [snd Database.db Database.set_db].
    assert (Hsub : Spec.ids (filter (λ row, ID row ≠ ID r) (Database.db w))
                   `sublist_of` Spec.ids (Database.db w)).
    { unfold Spec.ids. apply fmap_sublist, sublist_filter. }
    split.
    + by apply (sublist_NoDup _ _ Hnodup).
    + intros Hin. apply Hne. by apply (elem_of_sublist _ _ _ Hin Hsub).
  - unfold Database.SearchRecipesHandler. done.
Qed.

(** X17.  The database program keeps the keys of the table in order: from a
    table whose ids are pairwise distinct and not empty, every run of
    requests, whatever they are, leaves a table whose ids are pairwise
    distinct and not empty (the generator never gives the empty string). *)
Theorem database_run_keeps_ids_distinct_and_nonempty
  (reqs : list Database.Request) (w : Database.World) :
  NoDup (Spec.ids (Database.db w)) → "" ∉ Spec.ids (Database.db w) →
  NoDup (Spec.ids (Database.db (Database.run xid_String clock reqs w).2))
  ∧ "" ∉ Spec.ids (Database.db (Database.run xid_String clock reqs w).2).
Proof.
  revert w. induction reqs as [|req reqs IH]; intros w Hnodup Hne; [done|].
  cbn [Database.run].
  destruct (database_serve_keeps_keys req w Hnodup Hne) as [Hnodup1 Hne1].
  destruct (Database.serve xid_String clock req w) as [replies w1].
  cbn [snd] in *. specialize (IH w1 Hnodup1 Hne1).
  by destruct (Database.run xid_String clock reqs w1) as [log w2].
Qed.

End Keys.

Lemma database_run_keeps_ids_distinct_and_nonempty_witness :
  (∀ n : nat, Samples.xid_sample n ≠ "")
  ∧ NoDup (Spec.ids [Samples.recipeA; Samples.recipeB])
  ∧ ("" ∉ Spec.ids [Samples.recipeA; Samples.recipeB])
  ∧ NoDup (Spec.ids (Database.db
      (Database.run Samples.xid_sample Samples.clock_sample
         [Database.POST_recipes (BindOk Samples.bodyOther);
          Database.PUT_recipes "a" (BindOk Samples.bodyOther);
          Database.DELETE_recipes "b"]
         (Database.mkWorld [Samples.recipeA; Samples.recipeB] 0 0)).2)).
Proof.
  assert (Hnodup : NoDup (Spec.ids [Samples.recipeA; Samples.recipeB])).
  { apply (bool_decide_unpack _). vm_compute. exact I. }
  assert (Hne : "" ∉ Spec.ids [Samples.recipeA; Samples.recipeB]).
  { apply (bool_decide_unpack _). vm_compute. exact I. }
  split; [exact xid_sample_nonempty|]. split; [exact Hnodup|].
  split; [exact Hne|].
  exact (proj1 (database_run_keeps_ids_distinct_and_nonempty
    Samples.xid_sample Samples.clock_sample xid_sample_nonempty
    [Database.POST_recipes (BindOk Samples.bodyOther);
     Database.PUT_recipes "a" (BindOk Samples.bodyOther);
     Database.DELETE_recipes "b"]
    (Database.mkWorld [Samples.recipeA; Samples.recipeB] 0 0) Hnodup Hne)).
Defined.

(** ** The database load, for every file *)

Section LoadRecords.

Variable xid_String : nat → string.
Variable clock : nat → Time.

Lemma fill_missing_counts (recipe : Recipe) (w : Database.World) :
  Database.xids (Database.fill_missing xid_String clock recipe w).2
  = (if String.eqb (ID recipe) "" then S (Database.xids w) else Database.xids w).
Proof.
  unfold Database.fill_missing, Database.xid_New, Database.time_Now.
  destruct (String.eqb (ID recipe) ""), (IsZero (PublishedAt recipe)) eqn:Hz;
    cbn; rewrite ?Hz; cbn; done.
Qed.

Lemma fill_missing_loaded_from (recipe : Recipe) (w : Database.World) :
  Spec.loaded_from xid_String clock recipe
    (Database.fill_missing xid_String clock recipe w).1.
Proof.
  pose proof (fill_missing_fields xid_String clock recipe w) as Hf.
  destruct (Database.fill_missing xid_String clock recipe w) as [filled w1].
  destruct Hf as (Hid & Htime & Hname & Htags & Hingr & Hinst & _).
  unfold Spec.loaded_from. cbn [fst]. repeat split; try done.
  - destruct (String.eqb (ID recipe) ""); [by eexists | done].
  - destruct (IsZero (PublishedAt recipe)); [by eexists | done].
Qed.

Lemma fill_all_loaded_from (batch : list Recipe) (w : Database.World) :
  Forall2 (Spec.loaded_from xid_String clock) batch
    (Database.fill_all xid_String clock batch w).1.
Proof.
  revert w. induction batch as [|recipe rest IH]; intros w; [constructor|].
  cbn [Database.fill_all].
  pose proof (fill_missing_loaded_from recipe w) as Hr.
  destruct (Database.fill_missing xid_String clock recipe w) as [filled w1].
  specialize (IH w1).
  destruct (Database.fill_all xid_String clock rest w1) as [more w2].
  by constructor.
Qed.

Lemma fill_all_app (l1 l2 : list Recipe) (w : Database.World) :
  Database.fill_all xid_String clock (l1 ++ l2) w
  = ((Database.fill_all xid_String clock l1 w).1
     ++ (Database.fill_all xid_String clock l2
           (Database.fill_all xid_String clock l1 w).2).1,
     (Database.fill_all xid_String clock l2
        (Database.fill_all xid_String clock l1 w).2).2).
Proof.
  revert w. induction l1 as [|recipe rest IH]; intros w.
  - cbn. by destruct (Database.fill_all xid_String clock l2 w).
  - cbn [app Database.fill_all].
    destruct (Database.fill_missing xid_String clock recipe w) as [filled w1].
    rewrite IH. by destruct (Database.fill_all xid_String clock rest w1).
Qed.

Lemma insert_loop_app (l1 rest : list Recipe) (w : Database.World) :
  NoDup (Spec.ids (Database.db w
                   ++ (Database.fill_all xid_String clock l1 w).1)) →
  Database.insert_loop xid_String clock (l1 ++ rest) w
  = Database.insert_loop xid_String clock rest
      (Database.set_db
         (Database.db w ++ (Database.fill_all xid_String clock l1 w).1)
         (Database.fill_all xid_String clock l1 w).2).
Proof.
  revert w. induction l1 as [|recipe l1 IH]; intros w Hnodup.
  - cbn. rewrite app_nil_r. by destruct w.
  - cbn [app Database.insert_loop Database.fill_all] in *.
    pose proof (fill_missing_fields xid_String clock recipe w) as Hf.
    destruct (Database.fill_missing xid_String clock recipe w) as [filled w1].
    destruct Hf as (_ & _ & _ & _ & _ & _ & Hdb).
    destruct (Database.fill_all xid_String clock l1 w1) as [more w2] eqn:Hrest.
    cbn [fst snd] in *. unfold Database.db_Create.
    destruct (Database.has_key (ID filled) (Database.db w1)) eqn:Hkey.
    + exfalso. apply has_key_true in Hkey. rewrite Hdb in Hkey.
      rewrite ids_app in Hnodup. apply NoDup_app in Hnodup as (_ & Hdisj & _).
      apply (Hdisj _ Hkey). unfold Spec.ids. cbn. by left.
    + rewrite IH; rewrite fill_all_set_db, Hrest;
        cbn [fst snd Database.db Database.set_db].
      * rewrite Hdb, <- app_assoc. done.
      * by rewrite Hdb, <- app_assoc.
Qed.

(** X18.  When the ids the records of the file end up with are pairwise
    distinct, the database load ends without a fatal error and the table
    holds one row for each record of the file, in the order of the file,
    whatever it held before: a row has a generated id where the record had
    none and the record's id otherwise, a clock reading where the record
    had the zero timestamp and the record's timestamp otherwise, and the
    record's name, tags, ingredients and instructions. *)
Theorem database_load_rows_follow_the_file
  (batch : list Recipe) (w : Database.World) :
  NoDup (Spec.ids (Database.fill_all xid_String clock batch w).1) →
  ∃ w' : Database.World,
    Database.loadInitialData xid_String clock (Parsed batch) w = (None, w')
    ∧ Forall2 (Spec.loaded_from xid_String clock) batch (Database.db w').
Proof.
  intros Hnodup. eexists. split.
  - by apply database_load_replaces_and_fills.
  - cbn [Database.db Database.set_db]. apply fill_all_loaded_from.
Qed.

(** X19.  A record of the file whose id is not empty and is already the id
    of a record loaded before it stops the database load: the loop ends in
    the fatal error of the insert, which names that record and carries the
    error of the driver for the repeated key (whatever its text), and the
    table holds the records loaded before it and nothing of the rest of the
    file. *)
Theorem database_load_stops_at_a_repeated_id
  (l1 : list Recipe) (r : Recipe) (l2 : list Recipe) (w : Database.World) :
  NoDup (Spec.ids (Database.fill_all xid_String clock l1 w).1) →
  ID r ≠ "" →
  ID r ∈ Spec.ids (Database.fill_all xid_String clock l1 w).1 →
  (Database.loadInitialData xid_String clock (Parsed (l1 ++ r :: l2)) w).1
  = Some (FatalInserting (Name r) ErrUniqueViolation)
  ∧ Database.db
      (Database.loadInitialData xid_String clock (Parsed (l1 ++ r :: l2)) w).2
    = (Database.fill_all xid_String clock l1 w).1.
Proof.
  intros Hnodup Hne Hin.
  unfold Database.loadInitialData, Database.db_Exec_DELETE_FROM_recipes.
  rewrite insert_loop_app; rewrite fill_all_set_db;
    cbn [fst snd Database.db Database.set_db app]; [|done].
  cbn [Database.insert_loop]. rewrite !fill_missing_set_db.
  pose proof (fill_missing_fields xid_String clock r
                (Database.fill_all xid_String clock l1 w).2) as Hf.
  destruct (Database.fill_missing xid_String clock r
              (Database.fill_all xid_String clock l1 w).2) as [filled w1].
  destruct Hf as (Hid & _ & Hname & _).
  cbn [fst snd]. unfold Database.db_Create. cbn [Database.db Database.set_db].
  destruct (String.eqb_spec (ID r) "") as [|_]; [done|].
  apply has_key_true in Hin. rewrite Hid, Hin. cbn [fst snd Database.db].
  by rewrite Hname.
Qed.

End LoadRecords.

Lemma database_load_rows_follow_the_file_witness :
  NoDup (Spec.ids (Database.fill_all Samples.xid_sample Samples.clock_sample
                     [Samples.recipeBare; Samples.recipeA]
                     (Database.mkWorld [Samples.recipeB] 0 0)).1)
  ∧ ∃ w' : Database.World,
      Database.loadInitialData Samples.xid_sample Samples.clock_sample
        (Parsed [Samples.recipeBare; Samples.recipeA])
        (Database.mkWorld [Samples.recipeB] 0 0)
      = (None, w').
Proof.
  assert (Hnodup : NoDup (Spec.ids
            (Database.fill_all Samples.xid_sample Samples.clock_sample
               [Samples.recipeBare; Samples.recipeA]
               (Database.mkWorld [Samples.recipeB] 0 0)).1)).
  { apply (bool_decide_unpack _). vm_compute. exact I. }
  split; [exact Hnodup|].
  destruct (database_load_rows_follow_the_file Samples.xid_sample
    Samples.clock_sample [Samples.recipeBare; Samples.recipeA]
    (Database.mkWorld [Samples.recipeB] 0 0) Hnodup) as (w' & Hload & _).
  by exists w'.
Defined.

Lemma database_load_stops_at_a_repeated_id_witness :
  NoDup (Spec.ids (Database.fill_all Samples.xid_sample Samples.clock_sample
                     [Samples.recipeA] (Database.mkWorld [] 0 0)).1)
  ∧ ID Samples.recipeA ≠ ""
  ∧ (ID Samples.recipeA
       ∈ Spec.ids (Database.fill_all Samples.xid_sample Samples.clock_sample
                     [Samples.recipeA] (Database.mkWorld [] 0 0)).1)
  ∧ Database.db
      (Database.loadInitialData Samples.xid_sample Samples.clock_sample
         (Parsed ([Samples.recipeA] ++ Samples.recipeA :: [Samples.recipeB]))
         (Database.mkWorld [] 0 0)).2
    = (Database.fill_all Samples.xid_sample Samples.clock_sample
         [Samples.recipeA] (Database.mkWorld [] 0 0)).1.
Proof.
  assert (Hnodup : NoDup (Spec.ids
            (Database.fill_all Samples.xid_sample Samples.clock_sample
               [Samples.recipeA] (Database.mkWorld [] 0 0)).1)).
  { apply (bool_decide_unpack _). vm_compute. exact I. }
  assert (Hne : ID Samples.recipeA ≠ "") by discriminate.
  assert (Hin : ID Samples.recipeA
            ∈ Spec.ids (Database.fill_all Samples.xid_sample Samples.clock_sample
                          [Samples.recipeA] (Database.mkWorld [] 0 0)).1).
  { apply (bool_decide_unpack _). vm_compute. exact I. }
  split; [exact Hnodup|]. split; [exact Hne|]. split; [exact Hin|].
  exact (proj2 (database_load_stops_at_a_repeated_id Samples.xid_sample
    Samples.clock_sample [Samples.recipeA] Samples.recipeA [Samples.recipeB]
    (Database.mkWorld [] 0 0) Hnodup Hne Hin)).
Defined.

Section LoadKeys.

Variable xid_String : nat → string.
Variable clock : nat → Time.
Hypothesis xid_unique : ∀ m n : nat, xid_String m = xid_String n → m = n.
Hypothesis xid_nonempty : ∀ n : nat, xid_String n ≠ "".

Lemma fill_all_without_ids (batch : list Recipe) (w : Database.World) :
  (∀ r, r ∈ batch → ID r = "") →
  Spec.ids (Database.fill_all xid_String clock batch w).1
  = map xid_String (seq (Database.xids w) (length batch))
  ∧ Database.xids (Database.fill_all xid_String clock batch w).2
    = (Database.xids w + length batch)%nat.
Proof.
  revert w. induction batch as [|recipe rest IH]; intros w Hall.
  - cbn. split; [done | lia].
  - cbn [Database.fill_all].
    assert (Hrecipe : ID recipe = "") by (apply Hall; by left).
    pose proof (fill_missing_fields xid_String clock recipe w) as Hf.
    pose proof (fill_missing_counts xid_String clock recipe w) as Hc.
    destruct (Database.fill_missing xid_String clock recipe w) as [filled w1].
    destruct Hf as (Hid & _). cbn [snd] in Hc.
    rewrite Hrecipe in Hid, Hc. cbn [String.eqb] in Hid, Hc.
    destruct (IH w1) as [Hids Hx]; [intros r Hr; apply Hall; by right|].
    destruct (Database.fill_all xid_String clock rest w1) as [more w2].
    cbn [fst snd length seq map] in *. unfold Spec.ids in *. cbn [map].
    rewrite Hid, Hids, Hx, Hc. split; [done | lia].
Qed.

Lemma insert_loop_keys (batch : list Recipe) (w w' : Database.World) :
  NoDup (Spec.ids (Database.db w)) → "" ∉ Spec.ids (Database.db w) →
  Database.insert_loop xid_String clock batch w = (None, w') →
  NoDup (Spec.ids (Database.db w')) ∧ ("" ∉ Spec.ids (Database.db w'))
  ∧ length (Database.db w') = (length (Database.db w) + length batch)%nat.
Proof.
  revert w. induction batch as [|recipe rest IH]; intros w Hnodup Hne Hloop.
  - cbn in Hloop. injection Hloop as <-. repeat split; [done..|cbn; lia].
  - cbn [Database.insert_loop] in Hloop.
    pose proof (fill_missing_fields xid_String clock recipe w) as Hf.
    destruct (Database.fill_missing xid_String clock recipe w) as [filled w1].
    destruct Hf as (Hid & _ & _ & _ & _ & _ & Hdb).
    unfold Database.db_Create in Hloop.
    destruct (Database.has_key (ID filled) (Database.db w1)) eqn:Hkey; [done|].
    assert (Hfresh : ID filled ∉ Spec.ids (Database.db w)).
    { intros Hin. rewrite <- Hdb in Hin. apply has_key_true in Hin. congruence. }
    assert (Hfilled : ID filled ≠ "").
    { rewrite Hid.
      destruct (String.eqb_spec (ID recipe) ""); [apply xid_nonempty | done]. }
    apply IH in Hloop; cbn [Database.db Database.set_db] in *.
    + destruct Hloop as (H1 & H2 & H3). repeat split; [done..|].
      rewrite H3, length_app, Hdb. cbn. lia.
    + rewrite Hdb, ids_app. unfold Spec.ids at 2. cbn [map].
      apply NoDup_app. repeat split; [done| |apply NoDup_singleton].
      intros x Hx Hx'. apply list_elem_of_singleton in Hx' as ->. done.
    + rewrite Hdb, ids_app. unfold Spec.ids at 2. cbn [map].
      rewrite not_elem_of_app, not_elem_of_cons.
      repeat split; [done| |apply not_elem_of_nil]. congruence.
Qed.

(** X20.  A file none of whose records carries an id always loads: the
    database load ends without a fatal error, whatever the table held, the
    ids of the rows afterwards are the next identifiers of the generator,
    one for each record in the order of the file, and the generator has
    moved on by the number of records (the generator never repeats). *)
Theorem database_load_of_records_without_ids
  (batch : list Recipe) (w : Database.World) :
  (∀ r, r ∈ batch → ID r = "") →
  ∃ w' : Database.World,
    Database.loadInitialData xid_String clock (Parsed batch) w = (None, w')
    ∧ Spec.ids (Database.db w')
      = map xid_String (seq (Database.xids w) (length batch))
    ∧ Database.xids w' = (Database.xids w + length batch)%nat.
Proof.
  intros Hall.
  destruct (fill_all_without_ids batch w Hall) as [Hids Hx].
  eexists. split.
  - apply database_load_replaces_and_fills. rewrite Hids.
    apply NoDup_fmap_2; [|apply NoDup_seq]. intros m n. apply xid_unique.
  - cbn [Database.db Database.set_db Database.xids]. done.
Qed.

(** X21.  A database load that ends without a fatal error leaves a table
    whose ids are pairwise distinct and not empty, with one row for each
    record of the file (the generator never gives the empty string). *)
Theorem database_load_leaves_distinct_nonempty_ids
  (batch : list Recipe) (w w' : Database.World) :
  Database.loadInitialData xid_String clock (Parsed batch) w = (None, w') →
  NoDup (Spec.ids (Database.db w')) ∧ ("" ∉ Spec.ids (Database.db w'))
  ∧ length (Database.db w') = length batch.
Proof.
  intros Hload.
  unfold Database.loadInitialData, Database.db_Exec_DELETE_FROM_recipes in Hload.
  apply insert_loop_keys in Hload; cbn [Database.db Database.set_db] in *.
  - done.
  - apply NoDup_nil_2.
  - apply not_elem_of_nil.
Qed.

End LoadKeys.

Lemma database_load_of_records_without_ids_witness :
  (∀ m n : nat, Samples.xid_sample m = Samples.xid_sample n → m = n)
  ∧ (∀ r, r ∈ [Samples.recipeBare; Samples.recipeBare] → ID r = "")
  ∧ ∃ w' : Database.World,
      Database.loadInitialData Samples.xid_sample Samples.clock_sample
        (Parsed [Samples.recipeBare; Samples.recipeBare])
        (Database.mkWorld [Samples.recipeA] 0 0)
      = (None, w')
      ∧ Spec.ids (Database.db w') = ["x"; "xi"].
Proof.
  assert (Hall : ∀ r, r ∈ [Samples.recipeBare; Samples.recipeBare] → ID r = "").
  { intros r Hr. repeat (apply elem_of_cons in Hr as [->|Hr]); try reflexivity.
    by apply elem_of_nil in Hr. }
  split; [exact xid_sample_unique|]. split; [exact Hall|].
  destruct (database_load_of_records_without_ids Samples.xid_sample
    Samples.clock_sample xid_sample_unique
    [Samples.recipeBare; Samples.recipeBare]
    (Database.mkWorld [Samples.recipeA] 0 0) Hall) as (w' & Hload & Hids & _).
  exists w'. split; [exact Hload | exact Hids].
Defined.

Lemma database_load_leaves_distinct_nonempty_ids_witness :
  (∀ n : nat, Samples.xid_sample n ≠ "")
  ∧ Database.loadInitialData Samples.xid_sample Samples.clock_sample
      (Parsed [Samples.recipeBare; Samples.recipeA])
      (Database.mkWorld [Samples.recipeB] 0 0)
    = (None,
       Database.mkWorld
         [mkRecipe "x" "Soup" (Some ["hot"]) None None 1000; Samples.recipeA]
         1 1)
  ∧ NoDup (Spec.ids
             [mkRecipe "x" "Soup" (Some ["hot"]) None None 1000; Samples.recipeA]).
Proof.
  assert (Hload :
    Database.loadInitialData Samples.xid_sample Samples.clock_sample
      (Parsed [Samples.recipeBare; Samples.recipeA])
      (Database.mkWorld [Samples.recipeB] 0 0)
    = (None,
       Database.mkWorld
         [mkRecipe "x" "Soup" (Some ["hot"]) None None 1000; Samples.recipeA]
         1 1)) by (vm_compute; reflexivity).
  split; [exact xid_sample_nonempty|]. split; [exact Hload|].
  exact (proj1 (database_load_leaves_distinct_nonempty_ids Samples.xid_sample
    Samples.clock_sample xid_sample_nonempty
    [Samples.recipeBare; Samples.recipeA]
    (Database.mkWorld [Samples.recipeB] 0 0) _ Hload)).
Defined.
